(** * Verification of the rule-based Sanskrit analysis core of vedai

    Shallow embedding of
      - src/semantic-app/src/standalone_sanskrit_system.py
          (StandaloneSanskritAnalyzer: analyze_morphology,
           extract_semantic_triples, build_knowledge_graph,
           query_knowledge_graph, classify_semantic_field,
           romanize_devanagari)
      - src/semantic-app/src/rigveda_integration.py
          (RigVedaCorpusProcessor: load_corpus, analyze_hymn_themes,
           get_hymns_by_theme)
      - src/semantic-app/src/sanskrit_processor.py
          (SanskritProcessor: _guess_karaka, _analyze_verb_context)

    Python [str] values are lists of Unicode code points, Python [float]
    values are IEEE-754 binary64 numbers (Rocq's primitive floats), Python
    dictionaries are finite maps or, where the iteration order is used,
    association lists in insertion order. *)

From Stdlib Require Import Floats QArith Lqa Sorted.
From stdpp Require Import gmap list strings.

Set Warnings "-inexact-float,-register-all".
Set Default Proof Using "Type".

(** ** Python strings *)

(** A Python [str] is a sequence of code points. *)
Abbreviation str := (list N).

Module Utf8.

(** Decoder for the UTF-8 bytes of a literal of this file; it is only used
    to write the tables of the source with the same glyphs. *)
Fixpoint decode (bs : list N) : str :=
  match bs with
  | [] => []
  | b0 :: r0 =>
      if (b0 <? 128)%N then b0 :: decode r0
      else if (b0 <? 224)%N then
        match r0 with
        | b1 :: r1 => ((b0 - 192) * 64 + (b1 - 128))%N :: decode r1
        | _ => []
        end
      else if (b0 <? 240)%N then
        match r0 with
        | b1 :: b2 :: r2 =>
            ((b0 - 224) * 4096 + (b1 - 128) * 64 + (b2 - 128))%N :: decode r2
        | _ => []
        end
      else
        match r0 with
        | b1 :: b2 :: b3 :: r3 =>
            ((b0 - 240) * 262144 + (b1 - 128) * 4096
             + (b2 - 128) * 64 + (b3 - 128))%N :: decode r3
        | _ => []
        end
  end.

Definition bytes (s : string) : list N :=
  List.map Ascii.N_of_ascii (String.list_ascii_of_string s).

End Utf8.

(** [u "..."] is the Python string literal ['...']. *)
Definition u (s : string) : str := Utf8.decode (Utf8.bytes s).

Module PyStr.

(** [w.startswith(p)] *)
Fixpoint startswith (w p : str) {struct p} : bool :=
  match p, w with
  | [], _ => true
  | _ :: _, [] => false
  | c :: p', d :: w' => (c =? d)%N && startswith w' p'
  end.

(** [w.endswith(s)] *)
Definition endswith (w s : str) : bool := startswith (rev w) (rev s).

(** [s in w]: [s] occurs in [w] as a contiguous substring. *)
Fixpoint contains (s w : str) : bool :=
  startswith w s ||
  match w with
  | [] => false
  | _ :: w' => contains s w'
  end.

(** [w.replace(c, new)] for a pattern [c] of one code point. *)
Definition replace1 (c : N) (new : str) (w : str) : str :=
  flat_map (fun d => if (d =? c)%N then new else [d]) w.

(** [str.isspace] on one code point (CPython's [_PyUnicode_IsWhitespace]);
    it is also the class [\s] of [re] on [str] patterns. *)
Definition isspace (c : N) : bool :=
  ((9 <=? c) && (c <=? 13) || (28 <=? c) && (c <=? 32)
   || (c =? 133) || (c =? 160) || (c =? 5760)
   || (8192 <=? c) && (c <=? 8202)
   || (c =? 8232) || (c =? 8233) || (c =? 8239) || (c =? 8287)
   || (c =? 12288))%N.

(** Maximal runs of code points that are not separators, in order:
    [re.findall(r'[^...]+', s)] for the separator class, and [s.split()]
    for the white space. [cur] is the run being read. *)
Fixpoint runs (sep : N -> bool) (s : str) (cur : str) : list str :=
  match s with
  | [] => match cur with [] => [] | _ => [cur] end
  | c :: s' =>
      if sep c then
        match cur with
        | [] => runs sep s' []
        | _ => cur :: runs sep s' []
        end
      else runs sep s' (cur ++ [c])
  end.

(** [s.split()] *)
Definition split (s : str) : list str := runs isspace s [].

(** Truth value of a string: non-empty. *)
Definition truthy (s : str) : bool :=
  match s with [] => false | _ => true end.

(** Truth value of a variable holding [None] or a string. *)
Definition truthy_opt (o : option str) : bool :=
  match o with None => false | Some s => truthy s end.

End PyStr.

Import PyStr.

(** ** The analyzer's tables ([_initialize_vedic_knowledge],
       [_initialize_morphological_patterns]) *)

(** An entry of [vedic_vocabulary]; the keys ['attributes'] and ['type'] are
    never read by the functions below. *)
Record VocabEntry := {
  v_meaning : str;
  v_domain : option str
}.

Definition vocab (meaning domain : string) : VocabEntry :=
  {| v_meaning := u meaning; v_domain := Some (u domain) |}.

Definition deities : list (str * VocabEntry) :=
  [ (u "अग्नि", vocab "fire god, divine fire" "fire");
    (u "इन्द्र", vocab "king of gods, storm god" "storm");
    (u "वरुण", vocab "god of waters, cosmic order" "water");
    (u "सोम", vocab "sacred drink, moon god" "soma");
    (u "सूर्य", vocab "sun god" "sun");
    (u "वाय", vocab "wind god" "air");
    (u "मित्र", vocab "god of friendship, contracts" "social") ].

Definition ritual_terms : list (str * VocabEntry) :=
  [ (u "यज्ञ", vocab "sacrifice, ritual offering" "ritual");
    (u "होम", vocab "fire offering" "ritual");
    (u "हवि", vocab "oblation, offering" "ritual");
    (u "मन्त्र", vocab "sacred formula, hymn" "ritual");
    (u "स्तोम", vocab "praise, hymn" "ritual");
    (u "होतृ", vocab "priest who invokes" "ritual");
    (u "ऋत्विज्", vocab "ritual priest" "ritual") ].

Definition cosmic_terms : list (str * VocabEntry) :=
  [ (u "रित", vocab "cosmic order, truth" "philosophy");
    (u "सत्", vocab "being, truth" "philosophy");
    (u "द्यु", vocab "heaven, sky" "cosmology");
    (u "पृथिवी", vocab "earth" "cosmology");
    (u "आकाश", vocab "space, ether" "cosmology");
    (u "कल्प", vocab "cosmic age" "time") ].

(** [{**deities, **ritual_terms, **cosmic_terms}]: later bindings win. *)
Definition vedic_vocabulary : gmap str VocabEntry :=
  foldl (fun m kv => <[kv.1 := kv.2]> m) ∅
        (deities ++ ritual_terms ++ cosmic_terms).

(** [verb_roots], in insertion order (the order of [.items()]). *)
Definition verb_roots : list (str * str) :=
  [ (u "गम्", u "to go, move");
    (u "अस्", u "to be, exist");
    (u "भू", u "to become, be");
    (u "कृ", u "to do, make");
    (u "दा", u "to give");
    (u "यज्", u "to sacrifice, worship");
    (u "स्तु", u "to praise");
    (u "गै", u "to sing");
    (u "वच्", u "to speak");
    (u "जि", u "to conquer, win");
    (u "इ", u "to go");
    (u "हन्", u "to strike, kill");
    (u "पा", u "to protect");
    (u "धा", u "to place, hold");
    (u "इड्", u "to praise, invoke") ].

(** The keys of [case_endings], and the initial value ['unknown']. *)
Inductive Case :=
  | nominative | accusative | instrumental | dative | ablative | locative
  | unknown.

Global Instance Case_eq_dec : EqDecision Case.
Proof. solve_decision. Defined.

(** [case_endings], in insertion order. *)
Definition case_endings : list (Case * list str) :=
  [ (nominative, [u "अः"; u "आः"; u "ा"; u "इः"; u "ी"; u "उः"; u "ऊः"]);
    (accusative, [u "अम्"; u "आम्"; u "इम्"; u "ीम्"; u "उम्"; u "ऊम्"]);
    (instrumental, [u "एन"; u "आ"; u "इणा"; u "ीणा"; u "उणा"; u "ऊणा"]);
    (dative, [u "आय"; u "ए"; u "ये"]);
    (ablative, [u "आत्"; u "स्मात्"; u "त्"]);
    (locative, [u "े"; u "इ"; u "औ"; u "सु"]) ].

(** The sign virama, removed from a root by [root.replace('्', '')]. *)
Definition virama : N := 2381.

(** ** [analyze_morphology] *)

(** An element of [analysis['possible_roots']]. *)
Record RootInfo := {
  root : str;
  r_meaning : str;
  r_type : str
}.

(** The dictionary [analysis] returned by [analyze_morphology]. *)
Record Morphology := {
  m_word : str;
  m_possible_roots : list RootInfo;
  m_case : Case;
  m_number : str;
  m_confidence : float
}.

(** [root in word or word.startswith(root.replace('्', ''))] *)
Definition root_matches (word root : str) : bool :=
  contains root word || startswith word (replace1 virama [] root).

(** [analysis['possible_roots'].append(...); analysis['confidence'] += 0.3] *)
Definition add_root (root meaning : str) (analysis : Morphology) : Morphology :=
  {| m_word := m_word analysis;
     m_possible_roots :=
       m_possible_roots analysis
       ++ [ {| root := root; r_meaning := meaning; r_type := u "verb" |} ];
     m_case := m_case analysis;
     m_number := m_number analysis;
     m_confidence := (m_confidence analysis + 0.3)%float |}.

(** [analysis['case'] = case; analysis['confidence'] += 0.4] *)
Definition record_case (c : Case) (analysis : Morphology) : Morphology :=
  {| m_word := m_word analysis;
     m_possible_roots := m_possible_roots analysis;
     m_case := c;
     m_number := m_number analysis;
     m_confidence := (m_confidence analysis + 0.4)%float |}.

(** Body of [for root, meaning in self.verb_roots.items()]. *)
Definition check_root (word : str) (analysis : Morphology)
    (item : str * str) : Morphology :=
  if root_matches word item.1 then add_root item.1 item.2 analysis
  else analysis.

(** The inner loop [for ending in endings], left by [break] at the first
    ending that matches. *)
Fixpoint scan_endings (word : str) (c : Case) (endings : list str)
    (analysis : Morphology) : Morphology :=
  match endings with
  | [] => analysis
  | ending :: rest =>
      if endswith word ending then record_case c analysis
      else scan_endings word c rest analysis
  end.

(** Body of the outer loop [for case, endings in self.case_endings.items()];
    nothing leaves the outer loop early. *)
Definition check_case (word : str) (analysis : Morphology)
    (item : Case * list str) : Morphology :=
  scan_endings word item.1 item.2 analysis.

Definition analyze_morphology (word : str) : Morphology :=
  let analysis :=
    {| m_word := word;
       m_possible_roots := [];
       m_case := unknown;
       m_number := u "unknown";
       m_confidence := 0.0%float |} in
  let analysis := foldl (check_root word) analysis verb_roots in
  foldl (check_case word) analysis case_endings.

(** ** [extract_semantic_triples] *)

Record SanskritTriple := {
  verb_root : str;
  karaka : str;
  word : str;
  devanagari : str;
  meaning : str;
  confidence : float
}.

(** The attribute of the analyzer that [extract_semantic_triples] writes;
    [concepts], [word_frequencies] and [knowledge_graph] are left as
    [__init__] made them. *)
Record Analyzer := {
  triples : list SanskritTriple
}.

(** The class [[\s।॥]] of the pattern: white space, danda, double danda. *)
Definition separator (c : N) : bool :=
  isspace c || (c =? 2404)%N || (c =? 2405)%N.

(** [re.findall(r'[^\s।॥]+', sentence)] *)
Definition words_of (sentence : str) : list str := runs separator sentence [].

(** [root_info['type'] == 'verb'] *)
Definition is_verb (root_info : RootInfo) : bool :=
  bool_decide (r_type root_info = u "verb").

(** The loop [# Find main verb]: the inner loop stops at the first root of
    type verb, the outer one as soon as [main_verb] is true. *)
Fixpoint find_main_verb (words : list str) (main_verb verb_root : option str)
    : option str * option str :=
  match words with
  | [] => (main_verb, verb_root)
  | word :: rest =>
      let morphology := analyze_morphology word in
      let found :=
        match List.find is_verb (m_possible_roots morphology) with
        | Some root_info => (Some word, Some (root root_info))
        | None => (main_verb, verb_root)
        end in
      if truthy_opt found.1 then found
      else find_main_verb rest found.1 found.2
  end.

Definition praise_patterns : list str :=
  [u "इड्"; u "स्तु"; u "यज्"; u "गै"].

(** The loop [# Look for common Vedic verbs]. *)
Fixpoint find_praise_verb (words : list str) (main_verb verb_root : option str)
    : option str * option str :=
  match words with
  | [] => (main_verb, verb_root)
  | word :: rest =>
      if existsb (fun vr => contains vr word) praise_patterns
      then (Some word, Some (u "स्तु"))
      else find_praise_verb rest main_verb verb_root
  end.

(** The three steps that fix [main_verb] and [verb_root] before the karaka
    loop. [main_verb] is [None] or a string; [verb_root] is a string when
    the third step is over. *)
Definition select_verb (words : list str) : option str * str :=
  let found := find_main_verb words None None in
  let found :=
    if negb (truthy_opt found.2)
    then find_praise_verb words found.1 found.2
    else found in
  match found.2 with
  | Some v =>
      if truthy v then (found.1, v)
      else (Some (match words with w :: _ => w | [] => u "unknown" end),
            u "अस्")
  | None =>
      (Some (match words with w :: _ => w | [] => u "unknown" end), u "अस्")
  end.

(** [# Determine likely karaka based on case] *)
Definition karaka_of (c : Case) : str :=
  match c with
  | accusative => u "कर्म"
  | instrumental => u "करण"
  | dative => u "सम्प्रदान"
  | ablative => u "अपादान"
  | locative => u "अधिकरण"
  | nominative | unknown => u "कर्ता"
  end.

(** [# Get meaning from vocabulary] *)
Definition meaning_of (w : str) : str :=
  match vedic_vocabulary !! w with
  | Some entry => v_meaning entry
  | None => []
  end.

Definition make_triple (verb_root : str) (w : str) : SanskritTriple :=
  let morphology := analyze_morphology w in
  {| verb_root := verb_root;
     karaka := karaka_of (m_case morphology);
     word := w;
     devanagari := w;
     meaning := meaning_of w;
     confidence := m_confidence morphology |}.

(** The loop [# Analyze each word for karaka relations]; [continue] on
    [word == main_verb]. *)
Fixpoint karaka_loop (main_verb : option str) (verb_root : str)
    (words : list str) : list SanskritTriple :=
  match words with
  | [] => []
  | w :: rest =>
      if bool_decide (Some w = main_verb)
      then karaka_loop main_verb verb_root rest
      else make_triple verb_root w :: karaka_loop main_verb verb_root rest
  end.

(** The method returns its list and appends the same triples to
    [self.triples]. *)
Definition extract_semantic_triples (self : Analyzer) (sentence : str)
    : list SanskritTriple * Analyzer :=
  let words := words_of sentence in
  let sel := select_verb words in
  let ts := karaka_loop sel.1 sel.2 words in
  (ts, {| triples := triples self ++ ts |}).

(** ** [build_knowledge_graph] *)

(** An element of [analyses]: a dictionary of which the method reads the keys
    ['reference'] and ['triples'] with [.get]; [None] is an absent key. *)
Record Analysis := {
  a_reference : option str;
  a_triples : option (list SanskritTriple)
}.

(** A value of [graph['entities']]. *)
Record EntityInfo := {
  verses : list str;
  relations : list str;
  domain : str
}.

(** An element of [graph['relationships']]. *)
Record Relationship := {
  verb : str;
  relation : str;
  entity : str;
  verse : str;
  r_confidence : float
}.

Record Graph := {
  entities : gmap str EntityInfo;
  relationships : list Relationship;
  domains : gmap str (list str)
}.

Definition empty_graph : Graph :=
  {| entities := ∅; relationships := []; domains := ∅ |}.

(** The factory of the [defaultdict] of entities. *)
Definition new_entity : EntityInfo :=
  {| verses := []; relations := []; domain := u "unknown" |}.

(** Body of [for triple in analysis.get('triples', [])]. *)
Definition add_triple (verse_ref : str) (graph : Graph)
    (triple : SanskritTriple) : Graph :=
  let entity := word triple in
  let info := default new_entity (entities graph !! entity) in
  let info :=
    {| verses := verses info ++ [verse_ref];
       relations := relations info ++ [karaka triple];
       domain := domain info |} in
  let resolved :=
    if truthy (meaning triple) then vedic_vocabulary !! entity else None in
  let info :=
    match resolved with
    | Some entry =>
        {| verses := verses info;
           relations := relations info;
           domain := default (u "unknown") (v_domain entry) |}
    | None => info
    end in
  let doms :=
    match resolved with
    | Some entry =>
        let d := default (u "unknown") (v_domain entry) in
        <[d := default [] (domains graph !! d) ++ [verse_ref]]> (domains graph)
    | None => domains graph
    end in
  {| entities := <[entity := info]> (entities graph);
     relationships :=
       relationships graph
       ++ [ {| verb := verb_root triple;
               relation := karaka triple;
               entity := entity;
               verse := verse_ref;
               r_confidence := confidence triple |} ];
     domains := doms |}.

(** Body of [for analysis in analyses]. *)
Definition add_analysis (graph : Graph) (analysis : Analysis) : Graph :=
  let verse_ref := default (u "unknown") (a_reference analysis) in
  foldl (add_triple verse_ref) graph (default [] (a_triples analysis)).

Definition build_knowledge_graph (analyses : list Analysis) : Graph :=
  foldl add_analysis empty_graph analyses.

(** The two entries of the dictionary made by [analyze_rigveda_verse] that
    the graph builder reads, for the triples extracted from [sanskrit]. *)
Definition analyze_rigveda_verse (self : Analyzer) (sanskrit reference : str)
    : Analysis * Analyzer :=
  let r := extract_semantic_triples self sanskrit in
  ({| a_reference := Some reference; a_triples := Some r.1 |}, r.2).

(** ** [query_knowledge_graph] *)

(** An element of [results]. The score is a sum of the constants 2, 1.5 and
    1, all multiples of 1/2: binary64 adds them without rounding, so the
    sum is kept as an exact rational. *)
Record QueryResult := {
  relationship : Relationship;
  score : Q
}.

(** [x < y] on scores. *)
Definition Qlt_bool (x y : Q) : bool := negb (Qle_bool y x).

(** [sorted(results, key=lambda x: x['score'], reverse=True)]: a stable
    sort, records of equal score keep their order. *)
Fixpoint insert_desc (x : QueryResult) (l : list QueryResult)
    : list QueryResult :=
  match l with
  | [] => [x]
  | y :: l' =>
      if Qlt_bool (score x) (score y) then y :: insert_desc x l'
      else x :: l
  end.

Definition sorted_desc (l : list QueryResult) : list QueryResult :=
  foldr insert_desc [] l.

Section Query.

(** [str.lower]. The query engine is modelled for any lower-casing
    function; [lower_ascii] below is the one of the strings without cased
    code points outside ASCII. *)
Variable lower : str -> str.

(** Body of [for word in query_words]. *)
Definition score_word (r : Relationship) (score : Q) (w : str) : Q :=
  let score :=
    if contains w (lower (entity r)) then (score + 2)%Q else score in
  let score :=
    if contains w (lower (verb r)) then (score + (3 # 2))%Q else score in
  if contains w (lower (relation r)) then (score + 1)%Q else score.

Definition score_of (query_words : list str) (r : Relationship) : Q :=
  foldl (score_word r) 0%Q query_words.

(** Body of [for relationship in graph.get('relationships', [])]. *)
Definition match_relationship (query_words : list str) (r : Relationship)
    : list QueryResult :=
  let s := score_of query_words r in
  if Qlt_bool 0 s then [ {| relationship := r; score := s |} ] else [].

(** The list [results] when the loop over the relationships ends: the
    records kept by the threshold [score > 0], before the sort. *)
Definition candidates (query : str) (graph : Graph) : list QueryResult :=
  let query_words := split (lower query) in
  flat_map (match_relationship query_words) (relationships graph).

Definition query_knowledge_graph (query : str) (graph : Graph)
    : list QueryResult :=
  take 10 (sorted_desc (candidates query graph)).

End Query.

(** [str.lower] on strings whose only cased code points are ASCII letters
    (Devanagari has no case). *)
Definition lower_ascii (s : str) : str :=
  List.map (fun c => if ((65 <=? c) && (c <=? 90))%N then (c + 32)%N else c) s.

(** ** [RigVedaCorpusProcessor.load_corpus] (rigveda_integration.py) *)

Module Corpus.

(** A value read by [json.load]. A [JDict] lists the items of the parsed
    dictionary, whose keys are distinct. *)
Inductive json :=
  | JNull
  | JBool (b : bool)
  | JInt (z : Z)
  | JFloat (f : float)
  | JStr (s : str)
  | JList (l : list json)
  | JDict (d : list (str * json)).

(** Exceptions raised in the [try] block; all of them are instances of
    [Exception]. [OSError] and [JSONDecodeError] come from [open] and
    [json.load]. *)
Inductive exn :=
  | KeyError (k : str)
  | AttributeError
  | TypeError
  | OSError
  | JSONDecodeError.

Inductive outcome (A : Type) :=
  | Return (a : A)
  | Raise (e : exn).

Arguments Return {A} a.
Arguments Raise {A} e.

(** Truth value of a JSON value. *)
Definition json_truthy (v : json) : bool :=
  match v with
  | JNull => false
  | JBool b => b
  | JInt z => negb (z =? 0)%Z
  | JFloat f => negb (PrimFloat.eqb f 0%float)
  | JStr s => truthy s
  | JList l => match l with [] => false | _ => true end
  | JDict d => match d with [] => false | _ => true end
  end.

(** [d.get(k)], with [None] for Python's [None] result. *)
Fixpoint dict_get (d : list (str * json)) (k : str) : option json :=
  match d with
  | [] => None
  | (k', v) :: d' => if bool_decide (k' = k) then Some v else dict_get d' k
  end.

(** [d[k]] *)
Definition subscript (d : list (str * json)) (k : str) : outcome json :=
  match dict_get d k with
  | Some v => Return v
  | None => Raise (KeyError k)
  end.

(** [v == s] for a string literal [s]. *)
Definition equals_str (v : option json) (s : str) : bool :=
  match v with
  | Some (JStr s') => bool_decide (s' = s)
  | _ => false
  end.

(** The fields of [RigVedaHymn] that [load_corpus] passes; the dataclass
    does not check their types. The other fields keep their defaults. *)
Record RigVedaHymn := {
  book : json;
  hymn : json;
  reference : json;
  sanskrit : json;
  romanized : json;
  verses : json;
  url : json
}.

Global Instance outcome_ret : MRet outcome := fun A a => Return a.

Global Instance outcome_bind : MBind outcome := fun A B k m =>
  match m with
  | Return a => k a
  | Raise e => Raise e
  end.

(** [hymn_data.get('status') == 'complete' and hymn_data.get('sanskrit')] *)
Definition accepted (d : list (str * json)) : bool :=
  equals_str (dict_get d (u "status")) (u "complete")
  && match dict_get d (u "sanskrit") with
     | Some v => json_truthy v
     | None => false
     end.

(** Body of [for hymn_data in corpus_data]: [None] when the record is
    skipped, the hymn to append otherwise. [.get] on a value that is not a
    dictionary raises [AttributeError]. *)
Definition convert (hymn_data : json) : outcome (option RigVedaHymn) :=
  match hymn_data with
  | JDict d =>
      if accepted d then
        b ← subscript d (u "book");
        h ← subscript d (u "hymn");
        r ← subscript d (u "reference");
        s ← subscript d (u "sanskrit");
        z ← subscript d (u "romanized");
        mret (Some {| book := b; hymn := h; reference := r; sanskrit := s;
                        romanized := z;
                        verses := default (JInt 0) (dict_get d (u "verses"));
                        url := default (JStr []) (dict_get d (u "url")) |})
      else Return None
  | _ => Raise AttributeError
  end.

(** The loop over the records; [self.hymns] is updated in place, so the
    hymns appended before an exception stay in the list. *)
Fixpoint load_loop (items : list json) (hymns : list RigVedaHymn)
    : list RigVedaHymn * outcome unit :=
  match items with
  | [] => (hymns, Return tt)
  | hymn_data :: rest =>
      match convert hymn_data with
      | Raise e => (hymns, Raise e)
      | Return None => load_loop rest hymns
      | Return (Some h) => load_loop rest (hymns ++ [h])
      end
  end.

(** [len(corpus_data)] and the iteration of [corpus_data]: a list gives its
    elements, a dictionary its keys, a string its characters; the other
    values have no [len]. *)
Definition items_of (corpus_data : json) : outcome (list json) :=
  match corpus_data with
  | JList l => Return l
  | JDict d => Return (List.map (fun kv => JStr kv.1) d)
  | JStr s => Return (List.map (fun c => JStr [c]) s)
  | _ => Raise TypeError
  end.

(** The [try] block. [file] is what [open] and [json.load] give for
    [self.corpus_file]; the messages printed are not modelled. *)
Definition load_corpus_try (file : outcome json) (hymns : list RigVedaHymn)
    : list RigVedaHymn * outcome bool :=
  match file with
  | Raise e => (hymns, Raise e)
  | Return corpus_data =>
      match items_of corpus_data with
      | Raise e => (hymns, Raise e)
      | Return items =>
          let r := load_loop items hymns in
          (r.1, r.2 ≫= fun _ => mret true)
      end
  end.

(** [load_corpus]: the [try] block under [except Exception: return False]. *)
Definition load_corpus (file : outcome json) (hymns : list RigVedaHymn)
    : list RigVedaHymn * outcome bool :=
  let r := load_corpus_try file hymns in
  (r.1, match r.2 with
        | Return b => Return b
        | Raise _ => Return false
        end).

(** The keys read with [hymn_data[...]]. *)
Definition required_keys : list str :=
  [u "book"; u "hymn"; u "reference"; u "sanskrit"; u "romanized"].

End Corpus.

(** * Vocabulary of the statements *)

(** [add_n x n a] is [a + x + ... + x] with [n] additions, left to right. *)
Definition add_n (x : float) (n : nat) (a : float) : float :=
  Nat.iter n (fun a => (a + x)%float) a.

(** The roots of a list that match [word], in the order of the list. *)
Definition matching_roots (w : str) (items : list (str * str))
    : list (str * str) :=
  List.filter (fun item => root_matches w item.1) items.

(** The case lists that have an ending matching [word]. *)
Definition matching_cases (w : str) (items : list (Case * list str))
    : list (Case * list str) :=
  List.filter (fun item => existsb (endswith w) item.2) items.

(** The entry appended to [possible_roots] for an item of [verb_roots]. *)
Definition root_info_of (item : str * str) : RootInfo :=
  {| root := item.1; r_meaning := item.2; r_type := u "verb" |}.

(** The confidence after [r] matching roots and [c] matching case lists. *)
Definition confidence_value (r c : nat) : float :=
  add_n 0.4 c (add_n 0.3 r 0%float).

(** [main_verb] and [verb_root] are set together. *)
Definition paired (p : option str * option str) : Prop :=
  is_Some p.1 <-> is_Some p.2.

(** The first half-verse of the Rig Veda, the first entry of the demonstration
    corpus of the module. *)
Definition rv_1_1_1a : str := u "अग्निमीळे पुरोहितं यज्ञस्य देवमृत्विजम्".

(** [analysis.get('reference', 'unknown')] *)
Definition reference_of (a : Analysis) : str :=
  default (u "unknown") (a_reference a).

(** [analysis.get('triples', [])] *)
Definition triples_of (a : Analysis) : list SanskritTriple :=
  default [] (a_triples a).

(** The pairs (verse reference, triple) that the two loops of
    [build_knowledge_graph] visit, in the order of the visit. *)
Definition occurrences (analyses : list Analysis)
    : list (str * SanskritTriple) :=
  flat_map (fun a => List.map (fun t => (reference_of a, t)) (triples_of a))
           analyses.

(** One step of the inner loop, on a pair. *)
Definition add_occurrence (g : Graph) (p : str * SanskritTriple) : Graph :=
  add_triple p.1 g p.2.

(** The domain that [add_triple] resolves for a triple, if any. *)
Definition resolved_domain (t : SanskritTriple) : option str :=
  if truthy (meaning t)
  then (fun entry => default (u "unknown") (v_domain entry))
         <$> vedic_vocabulary !! word t
  else None.

(** The record appended to [graph['relationships']] for a pair. *)
Definition relationship_of (p : str * SanskritTriple) : Relationship :=
  {| verb := verb_root p.2; relation := karaka p.2; entity := word p.2;
     verse := p.1; r_confidence := confidence p.2 |}.

(** [graph['entities'][e]['verses']], empty for an entity not in the graph. *)
Definition entity_verses (g : Graph) (e : str) : list str :=
  match entities g !! e with
  | Some info => verses info
  | None => []
  end.

(** [graph['entities'][e]['relations']], empty for an entity not in the
    graph. *)
Definition entity_relations (g : Graph) (e : str) : list str :=
  match entities g !! e with
  | Some info => relations info
  | None => []
  end.

(** The graph built from the analysis of one sentence, as the demonstration
    of the module builds it. *)
Definition graph_of_sentence (sanskrit reference : str) : Graph :=
  build_knowledge_graph
    [ (analyze_rigveda_verse {| triples := [] |} sanskrit reference).1 ].

(** Sample records of a corpus file. *)
Module CorpusSamples.

Import Corpus.

(** A record that [load_corpus] accepts and converts. *)
Definition complete_record : json :=
  JDict [ (u "book", JInt 1); (u "hymn", JInt 1);
          (u "reference", JStr (u "RV 1.1"));
          (u "sanskrit", JStr (u "अग्निमीळे पुरोहितं"));
          (u "romanized", JStr (u "agnimile purohitam"));
          (u "verses", JInt 9); (u "url", JStr []);
          (u "status", JStr (u "complete")) ].

(** A record with status ['complete'] and a text, but without ['book']. *)
Definition record_without_book : list (str * json) :=
  [ (u "hymn", JInt 2);
    (u "reference", JStr (u "RV 1.2"));
    (u "sanskrit", JStr (u "वायवा याहि दर्शतेमे"));
    (u "romanized", JStr (u "vayava yahi darsateme"));
    (u "status", JStr (u "complete")) ].

End CorpusSamples.

Arguments add_n : simpl never.
Arguments u : simpl never.
Arguments analyze_morphology : simpl never.
Arguments make_triple : simpl never.

(** * Further definitions of the modules *)

(** [self.karaka_relations], in insertion order. *)
Definition karaka_relations : list (str * str) :=
  [ (u "कर्ता", u "agent (who does the action)");
    (u "कर्म", u "patient (what receives action)");
    (u "करण", u "instrument (means of action)");
    (u "सम्प्रदान", u "recipient (to whom given)");
    (u "अपादान", u "source (from which separated)");
    (u "अधिकरण", u "location/time (where/when)");
    (u "सम्बन्ध", u "possessor (whose, of what)") ].

(** [sep.join(ws)] *)
Fixpoint join (sep : str) (ws : list str) : str :=
  match ws with
  | [] => []
  | [w] => w
  | w :: rest => w ++ sep ++ join sep rest
  end.

(** A token: not empty, without white space and without danda. *)
Definition token (w : str) : Prop :=
  w <> [] /\ Forall (fun c => separator c = false) w.

(** The first root of [verb_roots] that matches a word, if one does. *)
Definition first_root (w : str) : option str :=
  fst <$> head (matching_roots w verb_roots).

(** [self.vedic_vocabulary[e].get('domain', 'unknown')] for a key [e] of the
    vocabulary, ['unknown'] for another string. *)
Definition vocab_domain (e : str) : str :=
  match vedic_vocabulary !! e with
  | Some entry => default (u "unknown") (v_domain entry)
  | None => u "unknown"
  end.

(** [graph['entities'][e]['domain']], when [e] is an entity of the graph. *)
Definition entity_domain (g : Graph) (e : str) : option str :=
  domain <$> entities g !! e.

Module CorpusSpec.

Import Corpus.

(** A record that the loop of [load_corpus] passes without exception: a
    dictionary that is skipped, or that has the five keys read by
    subscript. *)
Definition loadable (item : json) : bool :=
  match item with
  | JDict d =>
      negb (accepted d)
      || forallb (fun k => match dict_get d k with
                           | Some _ => true
                           | None => false
                           end) required_keys
  | _ => false
  end.

(** The hymns made from the records of a list, in order. *)
Definition converted (items : list json) : list RigVedaHymn :=
  omap (fun item => match convert item with
                    | Return h => h
                    | Raise _ => None
                    end) items.

End CorpusSpec.

(** ** [classify_semantic_field] *)

(** [field_scores[domain] += 1] on the [defaultdict(int)], whose keys are
    kept in insertion order. *)
Fixpoint increment (domain : str) (scores : list (str * nat))
    : list (str * nat) :=
  match scores with
  | [] => [(domain, 1%nat)]
  | (d, n) :: rest =>
      if bool_decide (d = domain) then (d, S n) :: rest
      else (d, n) :: increment domain rest
  end.

(** Body of [for word in words]. *)
Definition count_field (scores : list (str * nat)) (w : str)
    : list (str * nat) :=
  match vedic_vocabulary !! w with
  | Some entry => increment (default (u "unknown") (v_domain entry)) scores
  | None => scores
  end.

(** [max(field_scores, key=field_scores.get)] from the second key on:
    [best] is replaced only by a key with a greater count, so the first of
    the keys with the greatest count is returned. *)
Fixpoint max_by_count (best : str * nat) (rest : list (str * nat)) : str :=
  match rest with
  | [] => best.1
  | item :: rest' =>
      if (best.2 <? item.2)%nat then max_by_count item rest'
      else max_by_count best rest'
  end.

Definition classify_semantic_field (sentence : str) : str :=
  let words := words_of sentence in
  let field_scores := foldl count_field [] words in
  match field_scores with
  | [] => u "general"
  | first :: rest => max_by_count first rest
  end.

(** The domain counted for a token: the one of its vocabulary entry. *)
Definition word_domain (w : str) : option str :=
  (fun entry => default (u "unknown") (v_domain entry))
    <$> vedic_vocabulary !! w.

(** The number of tokens counted for a domain. *)
Definition domain_count (d : str) (words : list str) : nat :=
  length (filter (fun w => word_domain w = Some d) words).

(** The count stored for a key, 0 for an absent key. *)
Fixpoint get_count (scores : list (str * nat)) (d : str) : nat :=
  match scores with
  | [] => 0%nat
  | (d', n) :: rest => if bool_decide (d' = d) then n else get_count rest d
  end.

(** ** [romanize_devanagari] *)

(** [char_map], in insertion order; every key is one code point. *)
Definition char_map : list (str * str) :=
  [ (u "अ", u "a"); (u "आ", u "ā"); (u "इ", u "i"); (u "ई", u "ī");
    (u "उ", u "u"); (u "ऊ", u "ū"); (u "ऋ", u "ṛ"); (u "ॠ", u "ṝ");
    (u "ऌ", u "ḷ"); (u "ए", u "e"); (u "ऐ", u "ai"); (u "ओ", u "o");
    (u "औ", u "au"); (u "क", u "ka"); (u "ख", u "kha"); (u "ग", u "ga");
    (u "घ", u "gha"); (u "ङ", u "ṅa"); (u "च", u "ca"); (u "छ", u "cha");
    (u "ज", u "ja"); (u "झ", u "jha"); (u "ञ", u "ña"); (u "ट", u "ṭa");
    (u "ठ", u "ṭha"); (u "ड", u "ḍa"); (u "ढ", u "ḍha"); (u "ण", u "ṇa");
    (u "त", u "ta"); (u "थ", u "tha"); (u "द", u "da"); (u "ध", u "dha");
    (u "न", u "na"); (u "प", u "pa"); (u "फ", u "pha"); (u "ब", u "ba");
    (u "भ", u "bha"); (u "म", u "ma"); (u "य", u "ya"); (u "र", u "ra");
    (u "ल", u "la"); (u "व", u "va"); (u "श", u "śa"); (u "ष", u "ṣa");
    (u "स", u "sa"); (u "ह", u "ha"); (u "ं", u "ṃ"); (u "ः", u "ḥ");
    (u "्", []); (u "।", u " | "); (u "॥", u " || ") ].

(** [char_map.get(char, char)] *)
Fixpoint char_map_get (m : list (str * str)) (char : str) : str :=
  match m with
  | [] => char
  | (k, v) :: m' => if bool_decide (k = char) then v else char_map_get m' char
  end.

(** [s.lstrip()] *)
Fixpoint lstrip (s : str) : str :=
  match s with
  | [] => []
  | c :: s' => if isspace c then lstrip s' else s
  end.

(** [s.rstrip()] *)
Definition rstrip (s : str) : str := rev (lstrip (rev s)).

(** [s.strip()] *)
Definition strip (s : str) : str := lstrip (rstrip s).

(** The string [result] when the loop over the characters ends. *)
Definition romanize_chars (text : str) : str :=
  flat_map (fun c => char_map_get char_map [c]) text.

Definition romanize_devanagari (text : str) : str :=
  strip (romanize_chars text).

(** A code point that is a key of [char_map]. *)
Definition mapped (c : N) : bool :=
  existsb (fun kv => bool_decide (kv.1 = [c])) char_map.

(** ** [RigVedaCorpusProcessor.get_hymns_by_theme] *)

Section ByTheme.

(** The hymns of [self.hymns] are read through their attribute
    [spiritual_themes], [None] or a list of theme names. *)
Context {Hymn : Type} (spiritual_themes : Hymn -> option (list str)).

(** [hymn.spiritual_themes and theme in hymn.spiritual_themes] *)
Definition has_theme (theme : str) (h : Hymn) : bool :=
  match spiritual_themes h with
  | Some (t :: l) => bool_decide (theme ∈ t :: l)
  | Some [] | None => false
  end.

(** The loop over [self.hymns]; it is left when
    [len(matching_hymns) >= limit], a test made after each hymn. *)
Fixpoint by_theme_loop (theme : str) (limit : Z) (hymns matching : list Hymn)
    : list Hymn :=
  match hymns with
  | [] => matching
  | h :: rest =>
      let matching :=
        if has_theme theme h then matching ++ [h] else matching in
      if (limit <=? Z.of_nat (length matching))%Z then matching
      else by_theme_loop theme limit rest matching
  end.

Definition get_hymns_by_theme (hymns : list Hymn) (theme : str) (limit : Z)
    : list Hymn :=
  by_theme_loop theme limit hymns [].

End ByTheme.

(** ** [SanskritProcessor._guess_karaka] (sanskrit_processor.py) *)

(** The arguments [pos], [verb_pos] are positions in [tokens]; the list
    [tokens] itself is not read. *)
Definition guess_karaka (tok : str) (pos verb_pos : Z) : str :=
  if endswith tok (u "a") || endswith tok (u "ah") then u "karta"
  else if endswith tok (u "am") then u "karma"
  else if endswith tok (u "ena") || endswith tok (u "a") then u "karana"
  else if endswith tok (u "e") || endswith tok (u "ya") then u "sampradana"
  else if endswith tok (u "at") || endswith tok (u "ad") then u "apadana"
  else if endswith tok (u "e") || endswith tok (u "su") then u "adhikarana"
  else if (pos <? verb_pos)%Z then u "karta"
  else u "karma".

(** ** [SanskritProcessor._analyze_verb_context] (sanskrit_processor.py) *)

Module Processor.

(** The dataclass [SanskritTriple] of sanskrit_processor.py. *)
Record SanskritTriple := {
  verb_root : str;
  karaka : str;
  word : str;
  devanagari : str;
  meaning : str
}.

Section VerbContext.

(** [self.vocabulary], a dictionary from tokens to meanings. *)
Variable vocabulary : gmap str str.

(** The loop [for i, token in enumerate(tokens)], from position [i] on:
    [continue] at the position of the verb, a triple for every other token
    whose karaka is a true string. *)
Fixpoint verb_context_loop (verb_root : str) (verb_pos : Z) (i : Z)
    (tokens : list str) : list SanskritTriple :=
  match tokens with
  | [] => []
  | tok :: rest =>
      if (i =? verb_pos)%Z then
        verb_context_loop verb_root verb_pos (i + 1) rest
      else
        let karaka := guess_karaka tok i verb_pos in
        if truthy karaka then
          {| verb_root := verb_root;
             karaka := karaka;
             word := tok;
             devanagari := [];
             meaning := default (u "unknown") (vocabulary !! tok) |}
          :: verb_context_loop verb_root verb_pos (i + 1) rest
        else verb_context_loop verb_root verb_pos (i + 1) rest
  end.

(** The method returns its triples and appends them to [self.triples]. *)
Definition analyze_verb_context (self_triples : list SanskritTriple)
    (verb_root : str) (tokens : list str) (verb_pos : Z)
    : list SanskritTriple * list SanskritTriple :=
  let triples := verb_context_loop verb_root verb_pos 0 tokens in
  (triples, self_triples ++ triples).

End VerbContext.

End Processor.

(** A token of domain [d] comes before every token of domain [d']. *)
Definition precedes (words : list str) (d d' : str) : Prop :=
  exists pre w post,
    words = pre ++ w :: post
    /\ word_domain w = Some d
    /\ Forall (fun x => word_domain x <> Some d') pre.

(** ** [RigVedaCorpusProcessor.analyze_hymn_themes] *)

Module Themes.

(** [self.vedic_themes]: the name of each theme with its ['keywords'], in
    insertion order; the other two entries of a theme are not read. *)
Definition vedic_themes : list (str * list str) :=
  [ (u "agni", [u "अग्नि"; u "agni"; u "fire"; u "flame"]);
    (u "indra", [u "इन्द्र"; u "indra"; u "vajra"; u "thunderbolt"]);
    (u "soma", [u "सोम"; u "soma"; u "amrita"; u "nectar"]);
    (u "surya", [u "सूर्य"; u "surya"; u "sun"; u "light"; u "illumination"]);
    (u "varuna", [u "वरुण"; u "varuna"; u "water"; u "cosmic_order"]);
    (u "vayu", [u "वायु"; u "vayu"; u "wind"; u "breath"; u "prana"]);
    (u "cosmic_order", [u "ऋत"; u "rta"; u "rita"; u "order"; u "truth"; u "satya"]);
    (u "sacrifice", [u "यज्ञ"; u "yajna"; u "homa"; u "offering"; u "oblation"]);
    (u "creation", [u "सृष्टि"; u "creation"; u "genesis"; u "origin"; u "beginning"]);
    (u "prayer", [u "प्रार्थना"; u "prayer"; u "invocation"; u "hymn"; u "praise"]) ].

(** [self.philosophical_concepts], in insertion order. *)
Definition philosophical_concepts : list (str * list str) :=
  [ (u "consciousness", [u "चेतना"; u "consciousness"; u "awareness"; u "chit"]);
    (u "existence", [u "सत्"; u "sat"; u "being"; u "existence"; u "reality"]);
    (u "bliss", [u "आनन्द"; u "ananda"; u "bliss"; u "joy"; u "happiness"]);
    (u "immortality", [u "अमृत"; u "amrita"; u "immortal"; u "deathless"; u "eternal"]);
    (u "wisdom", [u "ज्ञान"; u "jnana"; u "knowledge"; u "wisdom"; u "understanding"]);
    (u "unity", [u "एकता"; u "unity"; u "oneness"; u "integration"; u "wholeness"]);
    (u "dharma", [u "धर्म"; u "dharma"; u "righteousness"; u "duty"; u "law"]);
    (u "karma", [u "कर्म"; u "karma"; u "action"; u "work"; u "deed"]) ].

Definition deity_themes : list str :=
  [u "agni"; u "indra"; u "soma"; u "surya"; u "varuna"; u "vayu"].

(** [s.count(sub)]: the occurrences of [sub] in [s] that do not overlap,
    from the left; [skip] code points of the last occurrence are still to
    be passed. *)
Fixpoint count (sub s : str) (skip : nat) : nat :=
  match s with
  | [] => match sub with [] => 1%nat | _ => 0%nat end
  | _ :: s' =>
      match skip with
      | S k => count sub s' k
      | O =>
          if startswith s sub then S (count sub s' (length sub - 1))
          else count sub s' 0
      end
  end.

(** [d.get(k)] on a dictionary kept as its list of items. *)
Fixpoint dict_get {V : Type} (d : list (str * V)) (k : str) : option V :=
  match d with
  | [] => None
  | (k', v) :: d' => if bool_decide (k' = k) then Some v else dict_get d' k
  end.

(** [l.sort(key=key, reverse=True)]: a stable sort, names of equal key keep
    their order. *)
Fixpoint insert_by (key : str -> nat) (x : str) (l : list str) : list str :=
  match l with
  | [] => [x]
  | y :: l' =>
      if (key x <? key y)%nat then y :: insert_by key x l' else x :: l
  end.

Definition sort_desc (key : str -> nat) (l : list str) : list str :=
  foldr (insert_by key) [] l.

Section Analyze.

Variable lower : str -> str.

(** The contribution of one keyword: its number of occurrences, twice that
    number for a keyword of more than three code points. *)
Definition keyword_score (text keyword : str) : nat :=
  let n := count (lower keyword) text 0 in
  if (3 <? length keyword)%nat then n * 2 else n.

(** The inner loop [for keyword in theme_data['keywords']]. *)
Definition theme_score (text : str) (keywords : list str) : nat :=
  foldl (fun score keyword => score + keyword_score text keyword) 0%nat
        keywords.

(** The loop [for theme_name, theme_data in ...items()] on a table of
    themes: the items put in [theme_scores]. *)
Definition scores_in (text : str) (themes : list (str * list str))
    : list (str * nat) :=
  flat_map (fun item => let score := theme_score text item.2 in
                        if (0 <? score)%nat then [(item.1, score)] else [])
           themes.

(** [theme_scores] after the loop over the themes: the themes with a score
    above 0, in the order of [vedic_themes]. *)
Definition theme_scores (text : str) : list (str * nat) :=
  scores_in text vedic_themes.

(** Body of [for deity in deity_themes], on the pair of [primary_deity] and
    [max_deity_score]. *)
Definition deity_step (scores : list (str * nat)) (best : str * nat)
    (deity : str) : str * nat :=
  match dict_get scores deity with
  | Some score => if (best.2 <? score)%nat then (deity, score) else best
  | None => best
  end.

(** The chain of tests on [themes_found]. *)
Definition ritual_context_of (themes_found : list str) : str :=
  if bool_decide (u "sacrifice" ∈ themes_found) then u "sacrifice"
  else if bool_decide (u "prayer" ∈ themes_found) then u "prayer"
  else if bool_decide (u "creation" ∈ themes_found) then u "cosmological"
  else u "general".

(** The loop over [self.philosophical_concepts]: a concept is appended once,
    at the first of its keywords found in the text. *)
Definition concepts_of (text : str) : list str :=
  flat_map (fun item =>
              if existsb (fun keyword => contains (lower keyword) text) item.2
              then [item.1] else [])
           philosophical_concepts.

(** [analyze_hymn_themes] for a hymn whose fields [sanskrit] and
    [romanized] are the two strings given. *)
Definition analyze_hymn_themes (sanskrit romanized : str)
    : list str * str * str * list str :=
  let text_to_analyze := lower (sanskrit ++ u " " ++ romanized) in
  let scores := theme_scores text_to_analyze in
  let themes_found := List.map fst scores in
  let themes_found :=
    sort_desc (fun x => default 0%nat (dict_get scores x)) themes_found in
  let primary_deity := (foldl (deity_step scores) ([], 0%nat) deity_themes).1 in
  let ritual_context := ritual_context_of themes_found in
  let philosophical_concepts := concepts_of text_to_analyze in
  (take 5 themes_found, primary_deity, ritual_context, philosophical_concepts).

(** The score of a theme name for a text, 0 for another string. *)
Definition score_for (text : str) (name : str) : nat :=
  match dict_get vedic_themes name with
  | Some keywords => theme_score text keywords
  | None => 0%nat
  end.

(** The list [themes_found] after the sort. *)
Definition themes_found (text : str) : list str :=
  sort_desc (fun x => default 0%nat (dict_get (theme_scores text) x))
            (List.map fst (theme_scores text)).

End Analyze.

End Themes.

(** * Properties *)

(** ** Strings *)

Lemma startswith_prefix (w p : str) :
  startswith w p = true <-> p `prefix_of` w.
Proof.
  revert w. induction p as [|c p IH]; intros w; simpl.
  - split; [intros _; apply prefix_nil | done].
  - destruct w as [|d w].
    + split; [done | intros [k Hk]; discriminate].
    + rewrite andb_true_iff, N.eqb_eq, IH. split.
      * intros [-> Hp]. by apply prefix_cons.
      * intros [k Hk]. injection Hk as -> ->. split; [done | by exists k].
Qed.

Lemma contains_infix (s w : str) :
  (exists a b, w = a ++ s ++ b) -> contains s w = true.
Proof.
  intros (a & b & ->). induction a as [|c a IH].
  - destruct (s ++ b) as [|d l] eqn:E; simpl;
      apply orb_true_iff; left; apply startswith_prefix;
      rewrite <- E; by exists b.
  - simpl. apply orb_true_iff. right. exact IH.
Qed.

Lemma runs_infix (sep : N -> bool) (s cur w : str) :
  w ∈ runs sep s cur -> exists a b, cur ++ s = a ++ w ++ b.
Proof.
  revert cur. induction s as [|c s IH]; intros cur; simpl.
  - destruct cur as [|d cur]; [by intros ?%elem_of_nil |].
    intros ->%list_elem_of_singleton. exists [], []. by rewrite app_nil_r.
  - destruct (sep c).
    + destruct cur as [|d cur].
      * intros (a & b & E)%IH. exists (c :: a), b. simpl in *. by rewrite E.
      * intros [-> | (a & b & E)%IH]%elem_of_cons.
        -- by exists [], (c :: s).
        -- exists ((d :: cur) ++ c :: a), b. simpl in E. rewrite E.
           by rewrite <- !app_assoc.
    + intros (a & b & E)%IH. exists a, b. rewrite <- E.
      by rewrite <- app_assoc.
Qed.

Lemma runs_nonempty (sep : N -> bool) (s cur : str) :
  (cur <> [] \/ exists c, c ∈ s /\ sep c = false) -> runs sep s cur <> [].
Proof.
  revert cur. induction s as [|c s IH]; intros cur; simpl.
  - intros [H | (c & []%elem_of_nil & _)]. by destruct cur.
  - intros H. destruct (sep c) eqn:E.
    + destruct cur as [|d cur]; [|done].
      apply IH. right. destruct H as [H | (c' & Hin & Hc')]; [done |].
      apply elem_of_cons in Hin as [-> | Hin]; [congruence | eauto].
    + apply IH. left. by destruct cur.
Qed.

(** Every word of [s.split()] is a substring of [s]. *)
Lemma split_contains (s w : str) : w ∈ split s -> contains w s = true.
Proof. intros H. apply contains_infix. by apply (runs_infix isspace s []). Qed.

(** ** The morphology guesser *)

Lemma add_n_S (x : float) (n : nat) (a : float) :
  add_n x (S n) a = add_n x n (a + x)%float.
Proof. unfold add_n. by rewrite Nat.iter_succ_r. Qed.

Lemma check_root_fold (w : str) (items : list (str * str)) (a : Morphology) :
  let a' := foldl (check_root w) a items in
  m_possible_roots a' =
    m_possible_roots a ++ List.map root_info_of (matching_roots w items)
  /\ m_confidence a' =
       add_n 0.3 (length (matching_roots w items)) (m_confidence a)
  /\ m_case a' = m_case a.
Proof.
  unfold matching_roots.
  revert a. induction items as [|item items IH]; intros a; simpl.
  - by rewrite app_nil_r.
  - destruct (IH (check_root w a item)) as (H1 & H2 & H3).
    rewrite H1, H2, H3. unfold check_root.
    destruct (root_matches w item.1); simpl; [|done].
    rewrite add_n_S. by rewrite <- app_assoc.
Qed.

Lemma scan_endings_spec (w : str) (c : Case) (endings : list str)
    (a : Morphology) :
  scan_endings w c endings a =
    if existsb (endswith w) endings then record_case c a else a.
Proof.
  induction endings as [|e endings IH]; simpl; [done |].
  by destruct (endswith w e).
Qed.

Lemma check_case_fold (w : str) (items : list (Case * list str))
    (a : Morphology) :
  let a' := foldl (check_case w) a items in
  m_possible_roots a' = m_possible_roots a
  /\ m_confidence a' =
       add_n 0.4 (length (matching_cases w items)) (m_confidence a)
  /\ m_case a' = from_option fst (m_case a) (last (matching_cases w items)).
Proof.
  unfold matching_cases.
  revert a. induction items as [|item items IH]; intros a; simpl; [done |].
  destruct (IH (check_case w a item)) as (H1 & H2 & H3).
  rewrite H1, H2, H3. unfold check_case. rewrite scan_endings_spec.
  destruct (existsb (endswith w) item.2); simpl; [|done].
  rewrite add_n_S, last_cons. split_and!; [done | done |].
  by destruct (last _).
Qed.

(** What [analyze_morphology] computes: the matching roots in table order,
    0.3 for each of them, then 0.4 for each case list with a matching
    ending, and the case of the last such list. *)
Lemma analyze_morphology_spec (w : str) :
  let m := analyze_morphology w in
  m_possible_roots m = List.map root_info_of (matching_roots w verb_roots)
  /\ m_confidence m =
       add_n 0.4 (length (matching_cases w case_endings))
         (add_n 0.3 (length (matching_roots w verb_roots)) 0%float)
  /\ m_case m = from_option fst unknown (last (matching_cases w case_endings)).
Proof.
  unfold analyze_morphology.
  set (a0 := {| m_word := w; m_possible_roots := []; m_case := unknown;
                m_number := u "unknown"; m_confidence := 0%float |}).
  pose proof (check_root_fold w verb_roots a0) as R.
  pose proof (check_case_fold w case_endings
                (foldl (check_root w) a0 verb_roots)) as C.
  cbv zeta in *.
  destruct R as (R1 & R2 & R3). destruct C as (C1 & C2 & C3).
  rewrite C1, C2, C3, R1, R2, R3. split_and!; reflexivity.
Qed.

Lemma confidence_table_nonneg :
  forallb (fun r =>
    forallb (fun c => PrimFloat.leb 0%float (confidence_value r c))
            (seq 0 (S (length case_endings))))
    (seq 0 (S (length verb_roots))) = true.
Proof. vm_compute. reflexivity. Qed.

Lemma confidence_value_nonneg (r c : nat) :
  r <= length verb_roots -> c <= length case_endings ->
  PrimFloat.leb 0%float (confidence_value r c) = true.
Proof.
  intros Hr Hc. pose proof confidence_table_nonneg as T.
  rewrite forallb_forall in T.
  assert (Hr' : In r (seq 0 (S (length verb_roots)))) by (apply in_seq; lia).
  specialize (T r Hr'). rewrite forallb_forall in T.
  apply T. apply in_seq. lia.
Qed.

(** C1 (analysis of the code at the failing input): the dative form
    [अग्नये] ends with the dative ending [ये] and with the locative ending
    [े]; the dative list comes first in the enumeration order, but
    [analyze_morphology] goes on after the match, records the locative and
    adds the bonus 0.4 twice. *)
Theorem analyze_morphology_agnaye :
  let w := u "अग्नये" in
  let m := analyze_morphology w in
  List.map fst (matching_cases w case_endings) = [dative; locative]
  /\ m_possible_roots m = []
  /\ m_case m = locative
  /\ m_confidence m = (0.0 + 0.4 + 0.4)%float.
Proof. vm_compute. repeat split. Qed.

(** The case recorded is the one of the last list, in enumeration order,
    that has a matching ending, and the bonus is added once for every such
    list. *)
Lemma analyze_morphology_last_case (w : str) (c : Case) (endings : list str)
    (before : list (Case * list str)) :
  matching_cases w case_endings = before ++ [(c, endings)] ->
  m_case (analyze_morphology w) = c
  /\ m_confidence (analyze_morphology w) =
       add_n 0.4 (S (length before))
         (add_n 0.3 (length (matching_roots w verb_roots)) 0%float).
Proof.
  intros E. destruct (analyze_morphology_spec w) as (_ & H2 & H3).
  rewrite H2, H3, E, last_snoc, length_app. cbn [length from_option fst].
  by rewrite Nat.add_1_r.
Qed.

(** C7: the confidence of every morphology guess is the float obtained
    from 0.0 by adding 0.3 once per matching verb root and then 0.4 once per
    case list with a matching ending; it is never negative, and nothing
    bounds it by 1.0: the token [दापाधा] gets 1.2999999999999998. *)
Theorem confidence_nonneg_unbounded :
  (forall w : str,
     let r := length (matching_roots w verb_roots) in
     let c := length (matching_cases w case_endings) in
     m_confidence (analyze_morphology w) = add_n 0.4 c (add_n 0.3 r 0%float)
     /\ PrimFloat.leb 0%float (m_confidence (analyze_morphology w)) = true)
  /\ (exists w : str,
        PrimFloat.ltb 1%float (m_confidence (analyze_morphology w)) = true).
Proof.
  split.
  - intros w r c. destruct (analyze_morphology_spec w) as (_ & H & _).
    split; [exact H |]. rewrite H.
    apply confidence_value_nonneg; apply filter_length_le.
  - exists (u "दापाधा"). vm_compute. reflexivity.
Qed.

(** ** The triple extractor *)

Lemma filter_none {A : Type} (f : A -> bool) (l : list A) :
  (forall x, x ∈ l -> f x = false) -> List.filter f l = [].
Proof.
  induction l as [|x l IH]; intros H; [done |].
  cbn [List.filter]. rewrite (H x) by left. apply IH.
  intros y Hy. apply H. by right.
Qed.

Lemma find_main_verb_paired (words : list str) (mv vr : option str) :
  paired (mv, vr) -> paired (find_main_verb words mv vr).
Proof.
  revert mv vr. induction words as [|w words IH]; intros mv vr H; [done |].
  cbn [find_main_verb].
  destruct (List.find is_verb (m_possible_roots (analyze_morphology w)))
    as [ri|]; cbn [fst snd].
  - destruct (truthy_opt (Some w)); [|apply IH]; by split.
  - destruct (truthy_opt mv); [done | by apply IH].
Qed.

Lemma find_praise_verb_paired (words : list str) (mv vr : option str) :
  paired (mv, vr) -> paired (find_praise_verb words mv vr).
Proof.
  intros H. induction words as [|w words IH]; [done |].
  cbn [find_praise_verb].
  destruct (existsb _ praise_patterns); [by split | done].
Qed.

(** The three steps always leave an anchor. *)
Lemma select_verb_anchor (words : list str) :
  is_Some (select_verb words).1.
Proof.
  unfold select_verb.
  set (f1 := find_main_verb words None None).
  assert (P1 : paired f1).
  { apply find_main_verb_paired. split; by intros [? ?]. }
  set (f2 := if negb (truthy_opt f1.2) then find_praise_verb words f1.1 f1.2
             else f1).
  assert (P2 : paired f2).
  { unfold f2. destruct (negb _); [|done].
    apply find_praise_verb_paired. by destruct f1. }
  destruct f2 as [mv [v|]]; cbn [fst snd]; [|done].
  destruct (truthy v); cbn [fst]; [|done]. apply P2. done.
Qed.

Lemma karaka_loop_words (mv : option str) (vr : str) (words : list str) :
  List.map word (karaka_loop mv vr words)
  = filter (fun w => Some w <> mv) words.
Proof.
  induction words as [|w words IH]; [done |].
  cbn [karaka_loop]. rewrite filter_cons.
  destruct (decide (Some w = mv)) as [E|E].
  - rewrite bool_decide_eq_true_2 by done.
    rewrite decide_False by (intros ?; done). exact IH.
  - rewrite bool_decide_eq_false_2 by done.
    rewrite decide_True by done. cbn [List.map]. by rewrite IH.
Qed.

Lemma karaka_loop_verb_root (mv : option str) (vr : str) (words : list str) :
  Forall (fun t => verb_root t = vr) (karaka_loop mv vr words).
Proof.
  induction words as [|w words IH]; [by constructor |].
  cbn [karaka_loop]. destruct (bool_decide _); [done |].
  by constructor.
Qed.

Lemma filter_split_length (a : str) (words : list str) :
  length (filter (fun w => Some w <> Some a) words)
  + length (filter (fun w => w = a) words) = length words.
Proof.
  induction words as [|w words IH]; [done |].
  rewrite !filter_cons. destruct (decide (w = a)) as [->|E].
  - rewrite decide_False by (intros ?; done). cbn [length]. lia.
  - rewrite decide_True by congruence. cbn [length]. lia.
Qed.

Lemma extract_words (self : Analyzer) (sentence : str) :
  List.map word (extract_semantic_triples self sentence).1
  = filter (fun w => Some w <> (select_verb (words_of sentence)).1)
           (words_of sentence).
Proof. unfold extract_semantic_triples. cbn [fst]. apply karaka_loop_words. Qed.

(** The triples returned are the ones appended to [self.triples]. *)
Lemma extract_accumulates (self : Analyzer) (sentence : str) :
  triples (extract_semantic_triples self sentence).2
  = triples self ++ (extract_semantic_triples self sentence).1.
Proof. reflexivity. Qed.

(** C3: the sentence [अग्निमीळे पुरोहितं यज्ञस्य देवमृत्विजम्] has four tokens;
    the verb root chosen is [यज्], an entry of [verb_roots], found as a
    substring of the third token, which becomes the anchor; the triples are
    one for each of the three other tokens, in the order of the tokens. *)
Theorem rv_1_1_1a_extraction (self : Analyzer) :
  let words := words_of rv_1_1_1a in
  let ts := (extract_semantic_triples self rv_1_1_1a).1 in
  words = [u "अग्निमीळे"; u "पुरोहितं"; u "यज्ञस्य"; u "देवमृत्विजम्"]
  /\ select_verb words = (Some (u "यज्ञस्य"), u "यज्")
  /\ verb_roots !! 5%nat = Some (u "यज्", u "to sacrifice, worship")
  /\ contains (u "यज्") (u "यज्ञस्य") = true
  /\ List.map word ts = [u "अग्निमीळे"; u "पुरोहितं"; u "देवमृत्विजम्"]
  /\ List.map word ts
     = filter (fun w => w <> u "यज्ञस्य") words
  /\ List.map verb_root ts = [u "यज्"; u "यज्"; u "यज्"].
Proof. vm_compute. repeat split. Qed.

(** C4: for every sentence an anchor token is chosen, and no triple that
    the extractor returns has this token as its [word]. *)
Theorem no_triple_for_anchor (self : Analyzer) (sentence : str) :
  exists anchor : str,
    (select_verb (words_of sentence)).1 = Some anchor
    /\ Forall (fun t => word t <> anchor)
              (extract_semantic_triples self sentence).1.
Proof.
  destruct (select_verb_anchor (words_of sentence)) as [anchor E].
  exists anchor. split; [exact E |].
  apply Forall_forall. intros t Ht Heq.
  assert (H : word t ∈ List.map word (extract_semantic_triples self sentence).1).
  { apply list_elem_of_fmap. by exists t. }
  rewrite extract_words, E in H.
  apply list_elem_of_filter in H as [H _]. apply H. by rewrite Heq.
Qed.

(** C8: when no token of the sentence matches a verb root and no token
    contains one of the four praise patterns, the verb root is the default
    [अस्] (to be, exist) and the anchor is the first token, or the marker
    ['unknown'] for a sentence without tokens, which gives no triple. *)
Theorem default_verb_fallback (self : Analyzer) (sentence : str) :
  let words := words_of sentence in
  let ts := (extract_semantic_triples self sentence).1 in
  (forall w item, w ∈ words -> item ∈ verb_roots ->
     root_matches w item.1 = false) ->
  (forall w p, w ∈ words -> p ∈ praise_patterns -> contains p w = false) ->
  select_verb words
  = (Some (match words with w :: _ => w | [] => u "unknown" end), u "अस्")
  /\ verb_roots !! 1%nat = Some (u "अस्", u "to be, exist")
  /\ Forall (fun t => verb_root t = u "अस्") ts
  /\ List.map word ts = match words with
                        | w :: rest => filter (fun w' => w' <> w) rest
                        | [] => []
                        end.
Proof.
  intros words ts H1 H2.
  assert (F1 : forall ws, ws ⊆ words ->
            find_main_verb ws None None = (None, None)).
  { induction ws as [|w ws IH]; intros Hs; [done |].
    cbn [find_main_verb].
    destruct (analyze_morphology_spec w) as (R & _ & _). rewrite R.
    unfold matching_roots. rewrite filter_none.
    - cbn [List.map List.find fst snd truthy_opt]. apply IH.
      intros x Hx. apply Hs. by right.
    - intros item Hitem. apply H1; [apply Hs; by left | done]. }
  assert (F2 : forall ws, ws ⊆ words ->
            find_praise_verb ws None None = (None, None)).
  { induction ws as [|w ws IH]; intros Hs; [done |].
    cbn [find_praise_verb].
    replace (existsb (fun vr => contains vr w) praise_patterns) with false.
    - apply IH. intros x Hx. apply Hs. by right.
    - symmetry. apply not_true_is_false. intros (p & Hp & Hc)%existsb_exists.
      rewrite (H2 w p) in Hc; [done | apply Hs; by left |].
      by apply list_elem_of_In. }
  assert (S : select_verb words
    = (Some (match words with w :: _ => w | [] => u "unknown" end), u "अस्")).
  { unfold select_verb. rewrite F1 by done. cbn [fst snd truthy_opt negb].
    by rewrite F2. }
  split; [exact S |]. split; [reflexivity |].
  unfold ts, extract_semantic_triples. cbn [fst]. fold words. rewrite S.
  cbn [fst snd]. split; [apply karaka_loop_verb_root |].
  rewrite karaka_loop_words. destruct words as [|w rest]; [done |].
  rewrite filter_cons, decide_False by (intros ?; done).
  apply list_filter_iff. intros x. split; intros H ?; apply H; congruence.
Qed.

(** C10: the anchor is skipped by comparing strings; when the string of the
    anchor occurs more than once among the tokens, all its occurrences are
    skipped and there are fewer triples than tokens minus one. *)
Theorem anchor_skipped_by_equality (self : Analyzer) (sentence : str)
    (anchor : str) :
  let words := words_of sentence in
  let ts := (extract_semantic_triples self sentence).1 in
  (select_verb words).1 = Some anchor ->
  1 < length (filter (fun w => w = anchor) words) ->
  List.map word ts = filter (fun w => w <> anchor) words
  /\ length ts + length (filter (fun w => w = anchor) words) = length words
  /\ length ts < length words - 1.
Proof.
  cbv zeta. intros E Hc.
  set (words := words_of sentence) in *.
  set (ts := (extract_semantic_triples self sentence).1).
  assert (M : List.map word ts = filter (fun w => Some w <> Some anchor) words).
  { unfold ts. rewrite extract_words. fold words. by rewrite E. }
  assert (L : length ts + length (filter (fun w => w = anchor) words)
              = length words).
  { rewrite <- (length_map word ts), M. apply filter_split_length. }
  split; [|split; [exact L | lia]].
  rewrite M. apply list_filter_iff. intros x.
  split; intros H ?; apply H; congruence.
Qed.

Lemma no_root_check (words : list str) :
  forallb (fun w => forallb (fun item => negb (root_matches w item.1))
                            verb_roots) words = true ->
  forall w item, w ∈ words -> item ∈ verb_roots ->
    root_matches w item.1 = false.
Proof.
  intros H w item Hw Hi. rewrite forallb_forall in H.
  specialize (H w (proj1 (list_elem_of_In _ _) Hw)).
  rewrite forallb_forall in H.
  specialize (H item (proj1 (list_elem_of_In _ _) Hi)).
  by apply negb_true_iff.
Qed.

Lemma no_praise_check (words : list str) :
  forallb (fun w => forallb (fun p => negb (contains p w)) praise_patterns)
          words = true ->
  forall w p, w ∈ words -> p ∈ praise_patterns -> contains p w = false.
Proof.
  intros H w p Hw Hp. rewrite forallb_forall in H.
  specialize (H w (proj1 (list_elem_of_In _ _) Hw)).
  rewrite forallb_forall in H.
  specialize (H p (proj1 (list_elem_of_In _ _) Hp)).
  by apply negb_true_iff.
Qed.

(** The fallback on a sentence of two tokens without verb root. *)
Lemma default_verb_fallback_witness :
  select_verb (words_of (u "पुरोहितं देवमृत्विजम्"))
  = (Some (u "पुरोहितं"), u "अस्").
Proof.
  refine (proj1 (default_verb_fallback {| triples := [] |}
                   (u "पुरोहितं देवमृत्विजम्") _ _)).
  - apply no_root_check. vm_compute. reflexivity.
  - apply no_praise_check. vm_compute. reflexivity.
Defined.

(** The fallback on the empty sentence: the marker and no triple. *)
Lemma empty_sentence_extraction (self : Analyzer) :
  select_verb (words_of []) = (Some (u "unknown"), u "अस्")
  /\ (extract_semantic_triples self []).1 = [].
Proof. vm_compute. by split. Qed.

(** A sentence that repeats its anchor: three tokens, one triple. *)
Lemma anchor_skipped_by_equality_witness :
  length (extract_semantic_triples {| triples := [] |}
            (u "यज्ञस्य अग्नि यज्ञस्य")).1
  < length (words_of (u "यज्ञस्य अग्नि यज्ञस्य")) - 1.
Proof.
  refine (proj2 (proj2 (anchor_skipped_by_equality {| triples := [] |}
                   (u "यज्ञस्य अग्नि यज्ञस्य") (u "यज्ञस्य") _ _))).
  - vm_compute. reflexivity.
  - vm_compute. apply le_n.
Defined.

(** ** The knowledge graph *)

Lemma add_analysis_fold (g : Graph) (a : Analysis) :
  add_analysis g a
  = foldl add_occurrence g
      (List.map (fun t => (reference_of a, t)) (triples_of a)).
Proof.
  unfold add_analysis. fold (reference_of a). fold (triples_of a).
  generalize (triples_of a) as ts. intros ts. revert g.
  induction ts as [|t ts IH]; intros g; [done |].
  cbn [foldl List.map]. apply IH.
Qed.

Lemma build_as_fold (analyses : list Analysis) :
  build_knowledge_graph analyses
  = foldl add_occurrence empty_graph (occurrences analyses).
Proof.
  unfold build_knowledge_graph, occurrences.
  generalize empty_graph as g. induction analyses as [|a l IH]; intros g.
  - done.
  - cbn [foldl flat_map]. rewrite foldl_app, <- add_analysis_fold. apply IH.
Qed.

Lemma add_triple_entity (v : str) (g : Graph) (t : SanskritTriple) :
  entity_verses (add_triple v g t) (word t)
  = entity_verses g (word t) ++ [v]
  /\ is_Some (entities (add_triple v g t) !! word t).
Proof.
  unfold entity_verses, add_triple. cbn [entities].
  rewrite lookup_insert_eq. split; [|by eexists].
  destruct (if truthy (meaning t) then vedic_vocabulary !! word t else None);
    cbn [verses]; by destruct (entities g !! word t).
Qed.

Lemma add_triple_relations (v : str) (g : Graph) (t : SanskritTriple) :
  entity_relations (add_triple v g t) (word t)
  = entity_relations g (word t) ++ [karaka t].
Proof.
  unfold entity_relations, add_triple. cbn [entities].
  rewrite lookup_insert_eq.
  destruct (if truthy (meaning t) then vedic_vocabulary !! word t else None);
    cbn [relations]; by destruct (entities g !! word t).
Qed.

Lemma add_triple_other (v : str) (g : Graph) (t : SanskritTriple) (e : str) :
  e <> word t ->
  entities (add_triple v g t) !! e = entities g !! e.
Proof.
  intros H. unfold add_triple. cbn [entities]. by rewrite lookup_insert_ne.
Qed.

Lemma add_triple_relationships (v : str) (g : Graph) (t : SanskritTriple) :
  relationships (add_triple v g t)
  = relationships g ++ [relationship_of (v, t)].
Proof. reflexivity. Qed.

Lemma add_triple_domains (v : str) (g : Graph) (t : SanskritTriple) (d : str) :
  default [] (domains (add_triple v g t) !! d)
  = default [] (domains g !! d)
    ++ (if decide (resolved_domain t = Some d) then [v] else []).
Proof.
  unfold add_triple, resolved_domain. cbn [domains].
  destruct (if truthy (meaning t) then vedic_vocabulary !! word t else None)
    as [entry|] eqn:E.
  - assert (R : (if truthy (meaning t)
                 then (fun entry => default (u "unknown") (v_domain entry))
                        <$> vedic_vocabulary !! word t
                 else None)
                = Some (default (u "unknown") (v_domain entry))).
    { destruct (truthy (meaning t)); [by rewrite E | done]. }
    rewrite R. destruct (decide (default (u "unknown") (v_domain entry) = d))
      as [<-|N].
    + rewrite lookup_insert_eq, decide_True by done. done.
    + rewrite lookup_insert_ne by done.
      rewrite decide_False by congruence. by rewrite app_nil_r.
  - assert (R : (if truthy (meaning t)
                 then (fun entry => default (u "unknown") (v_domain entry))
                        <$> vedic_vocabulary !! word t
                 else None) = None).
    { destruct (truthy (meaning t)); [by rewrite E | done]. }
    rewrite R, decide_False by done. by rewrite app_nil_r.
Qed.

Lemma fold_graph_spec (occs : list (str * SanskritTriple)) :
  let g := foldl add_occurrence empty_graph occs in
  (forall e, entity_verses g e
             = List.map fst (filter (fun p => word p.2 = e) occs))
  /\ (forall e, is_Some (entities g !! e)
                <-> exists p, p ∈ occs /\ word p.2 = e)
  /\ relationships g = List.map relationship_of occs
  /\ (forall d, default [] (domains g !! d)
                = List.map fst
                    (filter (fun p => resolved_domain p.2 = Some d) occs))
  /\ (forall e, entity_relations g e
                = List.map (fun p => karaka p.2)
                    (filter (fun p => word p.2 = e) occs)).
Proof.
  induction occs as [|[v t] occs IH] using rev_ind; cbv zeta.
  - cbn [foldl]. split_and!.
    + intros e. unfold entity_verses, empty_graph. cbn [entities].
      by rewrite lookup_empty.
    + intros e. unfold empty_graph. cbn [entities]. rewrite lookup_empty.
      split; [by intros [? ?] | by intros (p & []%elem_of_nil & _)].
    + done.
    + intros d. unfold empty_graph. cbn [domains]. by rewrite lookup_empty.
    + intros e. unfold entity_relations, empty_graph. cbn [entities].
      by rewrite lookup_empty.
  - rewrite foldl_app. cbn [foldl].
    set (g := foldl add_occurrence empty_graph occs) in *.
    destruct IH as (V & S & R & D & L). unfold add_occurrence. cbn [fst snd].
    split_and!.
    + intros e. rewrite filter_app, map_app, <- V.
      rewrite filter_cons, filter_nil. cbn [snd].
      destruct (decide (word t = e)) as [<-|N].
      * apply add_triple_entity.
      * unfold entity_verses. rewrite add_triple_other by done.
        by rewrite app_nil_r.
    + intros e. destruct (decide (e = word t)) as [->|N].
      * split; [|intros _; apply add_triple_entity].
        intros _. exists (v, t). split; [|done].
        apply elem_of_app. right. by left.
      * rewrite add_triple_other by done. rewrite S.
        split; intros (p & Hp & Hw).
        -- exists p. split; [|done]. apply elem_of_app. by left.
        -- exists p. split; [|done].
           apply elem_of_app in Hp as [Hp | Hp]; [done |].
           apply list_elem_of_singleton in Hp as ->. by destruct N.
    + rewrite add_triple_relationships, R. by rewrite map_app.
    + intros d. rewrite add_triple_domains, D, filter_app, map_app.
      rewrite filter_cons, filter_nil. cbn [snd].
      by destruct (decide (resolved_domain t = Some d)).
    + intros e. rewrite filter_app, map_app, <- L.
      rewrite filter_cons, filter_nil. cbn [snd].
      destruct (decide (word t = e)) as [<-|N].
      * apply add_triple_relations.
      * unfold entity_relations. rewrite add_triple_other by done.
        by rewrite app_nil_r.
Qed.

Lemma relations_by_analysis (e : str) (analyses : list Analysis) :
  List.map (fun p => karaka p.2)
    (filter (fun p => word p.2 = e) (occurrences analyses))
  = flat_map
      (fun a => List.map karaka
                         (filter (fun t => word t = e) (triples_of a)))
      analyses.
Proof.
  unfold occurrences. induction analyses as [|a l IH]; [done |].
  cbn [flat_map]. rewrite filter_app, map_app, IH. f_equal.
  generalize (triples_of a) as ts.
  induction ts as [|t ts IHt]; [done |].
  cbn [List.map]. rewrite !filter_cons. cbn [snd].
  destruct (decide (word t = e)); cbn [List.map snd]; by rewrite IHt.
Qed.

Lemma verses_by_analysis (e : str) (analyses : list Analysis) :
  List.map fst (filter (fun p => word p.2 = e) (occurrences analyses))
  = flat_map
      (fun a => List.map (fun _ => reference_of a)
                         (filter (fun t => word t = e) (triples_of a)))
      analyses.
Proof.
  unfold occurrences. induction analyses as [|a l IH]; [done |].
  cbn [flat_map]. rewrite filter_app, map_app, IH. f_equal.
  generalize (triples_of a) as ts.
  induction ts as [|t ts IHt]; [done |].
  cbn [List.map]. rewrite !filter_cons. cbn [snd].
  destruct (decide (word t = e)); cbn [List.map fst]; by rewrite IHt.
Qed.

(** C6: the verse list of an entity holds, analysis after analysis in input
    order, the reference of the analysis once for each of its triples on
    that entity; two analyses on the same entity give both references in
    input order. The relation list of the entity has one label for each
    of these triples, the list of relationships one record for each triple
    visited and the bucket of a domain one reference for each triple
    resolved to it: a repeated (entity, verse) pair is stored every time. *)
Theorem graph_accumulates (analyses : list Analysis) :
  let g := build_knowledge_graph analyses in
  (forall e,
     entity_verses g e
     = flat_map
         (fun a => List.map (fun _ => reference_of a)
                            (filter (fun t => word t = e) (triples_of a)))
         analyses)
  /\ (forall e, is_Some (entities g !! e)
                <-> exists p, p ∈ occurrences analyses /\ word p.2 = e)
  /\ List.map (fun r => (entity r, verse r)) (relationships g)
     = List.map (fun p => (word p.2, p.1)) (occurrences analyses)
  /\ (forall d,
        default [] (domains g !! d)
        = List.map fst (filter (fun p => resolved_domain p.2 = Some d)
                               (occurrences analyses)))
  /\ (forall e,
        entity_relations g e
        = flat_map
            (fun a => List.map karaka
                               (filter (fun t => word t = e) (triples_of a)))
            analyses).
Proof.
  cbv zeta. rewrite build_as_fold.
  destruct (fold_graph_spec (occurrences analyses)) as (V & S & R & D & L).
  split_and!.
  - intros e. rewrite V. apply verses_by_analysis.
  - exact S.
  - rewrite R. rewrite map_map. reflexivity.
  - exact D.
  - intros e. rewrite L. apply relations_by_analysis.
Qed.

(** Two analyses on the entity [अग्नि], the first one with the same triple
    twice: the three references are kept, in input order. *)
Lemma graph_two_analyses_example :
  let t := {| verb_root := u "यज्"; karaka := u "कर्ता"; word := u "अग्नि";
              devanagari := u "अग्नि"; meaning := u "fire god, divine fire";
              confidence := 0%float |} in
  let a1 := {| a_reference := Some (u "RV 1.1.1a");
               a_triples := Some [t; t] |} in
  let a2 := {| a_reference := Some (u "RV 1.164.46a");
               a_triples := Some [t] |} in
  let g := build_knowledge_graph [a1; a2] in
  entity_verses g (u "अग्नि")
  = [u "RV 1.1.1a"; u "RV 1.1.1a"; u "RV 1.164.46a"]
  /\ List.map verse (relationships g)
     = [u "RV 1.1.1a"; u "RV 1.1.1a"; u "RV 1.164.46a"]
  /\ domains g !! u "fire"
     = Some [u "RV 1.1.1a"; u "RV 1.1.1a"; u "RV 1.164.46a"].
Proof. vm_compute. repeat split. Qed.

(** ** The lexical query engine *)

Lemma Qlt_bool_iff (x y : Q) : Qlt_bool x y = true <-> (x < y)%Q.
Proof.
  unfold Qlt_bool. rewrite negb_true_iff. split.
  - intros H. apply Qnot_le_lt. intros L.
    apply Qle_bool_iff in L. congruence.
  - intros H. apply not_true_is_false. intros L%Qle_bool_iff.
    by apply Qlt_not_le in H.
Qed.

Lemma insert_desc_perm (x : QueryResult) (l : list QueryResult) :
  insert_desc x l ≡ₚ x :: l.
Proof.
  induction l as [|y l IH]; [done |]. cbn [insert_desc].
  destruct (Qlt_bool (score x) (score y)); [|done].
  rewrite IH. apply Permutation_swap.
Qed.

Lemma sorted_desc_perm (l : list QueryResult) : sorted_desc l ≡ₚ l.
Proof.
  induction l as [|x l IH]; [done |]. unfold sorted_desc in *.
  cbn [foldr]. rewrite insert_desc_perm. by rewrite IH.
Qed.

(** The first record of the sorted list has the greatest score. *)
Lemma sorted_desc_head (l : list QueryResult) (x : QueryResult) :
  x ∈ l ->
  exists h, head (sorted_desc l) = Some h /\ (score x <= score h)%Q.
Proof.
  induction l as [|a l IH]; [by intros ?%elem_of_nil |].
  intros Hx. unfold sorted_desc in *. cbn [foldr].
  destruct (foldr insert_desc [] l) as [|h t] eqn:E.
  - assert (l = []) as ->.
    { apply Permutation_nil_r. rewrite <- (sorted_desc_perm l).
      unfold sorted_desc. by rewrite E. }
    apply list_elem_of_singleton in Hx as ->.
    exists a. split; [done | apply Qle_refl].
  - cbn [insert_desc].
    destruct (Qlt_bool (score a) (score h)) eqn:L.
    + exists h. split; [done |].
      apply elem_of_cons in Hx as [-> | Hx].
      * apply Qlt_le_weak. by apply Qlt_bool_iff.
      * destruct (IH Hx) as (h' & [= <-] & Hle). exact Hle.
    + exists a. split; [done |].
      assert (Hha : (score h <= score a)%Q).
      { apply Qle_bool_iff. unfold Qlt_bool in L.
        by apply negb_false_iff in L. }
      apply elem_of_cons in Hx as [-> | Hx]; [apply Qle_refl |].
      destruct (IH Hx) as (h' & [= <-] & Hle).
      by apply Qle_trans with (score h).
Qed.

Section QueryFacts.

Variable lower : str -> str.

Lemma query_as_candidates (query : str) (graph : Graph) :
  query_knowledge_graph lower query graph
  = take 10 (sorted_desc (candidates lower query graph)).
Proof. reflexivity. Qed.

Lemma score_word_ge (r : Relationship) (s : Q) (w : str) :
  (s <= score_word lower r s w)%Q.
Proof.
  unfold score_word.
  destruct (contains w (lower (entity r))),
           (contains w (lower (verb r))),
           (contains w (lower (relation r))); lra.
Qed.

Lemma score_word_entity (r : Relationship) (s : Q) (w : str) :
  contains w (lower (entity r)) = true ->
  (s + 2 <= score_word lower r s w)%Q.
Proof.
  unfold score_word. intros ->.
  destruct (contains w (lower (verb r))),
           (contains w (lower (relation r))); lra.
Qed.

Lemma score_fold_ge (r : Relationship) (ws : list str) (s : Q) :
  (s <= foldl (score_word lower r) s ws)%Q.
Proof.
  revert s. induction ws as [|w ws IH]; intros s; [apply Qle_refl |].
  cbn [foldl]. eapply Qle_trans; [apply (score_word_ge r s w) | apply IH].
Qed.

(** A query whose words all occur in the entity scores 2 or more. *)
Lemma score_of_entity (r : Relationship) (ws : list str) :
  ws <> [] ->
  (forall w, w ∈ ws -> contains w (lower (entity r)) = true) ->
  (2 <= score_of lower ws r)%Q.
Proof.
  destruct ws as [|w ws]; [done |]. intros _ H.
  unfold score_of. cbn [foldl].
  eapply Qle_trans; [|apply score_fold_ge].
  eapply Qle_trans; [|apply score_word_entity; apply H; by left]. lra.
Qed.

Lemma match_relationship_elem (ws : list str) (r : Relationship)
    (x : QueryResult) :
  x ∈ match_relationship lower ws r <->
  x = {| relationship := r; score := score_of lower ws r |}
  /\ (0 < score_of lower ws r)%Q.
Proof.
  unfold match_relationship.
  destruct (Qlt_bool 0 (score_of lower ws r)) eqn:E.
  - rewrite list_elem_of_singleton. apply Qlt_bool_iff in E. tauto.
  - split; [by intros ?%elem_of_nil |].
    intros [_ H%Qlt_bool_iff]. congruence.
Qed.

Lemma candidates_elem (query : str) (g : Graph) (x : QueryResult) :
  x ∈ candidates lower query g <->
  exists r, r ∈ relationships g
    /\ x = {| relationship := r;
              score := score_of lower (split (lower query)) r |}
    /\ (0 < score_of lower (split (lower query)) r)%Q.
Proof.
  unfold candidates. rewrite list_elem_of_In, in_flat_map.
  split; intros (r & Hr & Hx); exists r.
  - apply list_elem_of_In in Hr, Hx.
    by apply match_relationship_elem in Hx.
  - split; [by apply list_elem_of_In |].
    apply list_elem_of_In. by apply match_relationship_elem.
Qed.

(** Every record returned is one of the candidates. *)
Lemma query_elem_candidates (query : str) (g : Graph) (x : QueryResult) :
  x ∈ query_knowledge_graph lower query g -> x ∈ candidates lower query g.
Proof.
  rewrite query_as_candidates. intros H.
  rewrite <- (sorted_desc_perm (candidates lower query g)).
  exact (subseteq_take 10 _ x H).
Qed.

End QueryFacts.

(** C5 (as amended): after building a graph, a query with the exact string
    of an entity of the graph that has a code point other than white space
    gives every relationship of that entity a score of 2 or more, so the
    result is not empty and its first record has a score of 2 or more; a
    record of the entity itself is returned when no more than 10
    relationships of the graph score above 0 (only the 10 best are kept). *)
Theorem query_own_entity (lower : str -> str) (analyses : list Analysis)
    (e : str) :
  let g := build_knowledge_graph analyses in
  let results := query_knowledge_graph lower e g in
  is_Some (entities g !! e) ->
  (exists c, c ∈ lower e /\ isspace c = false) ->
  (forall r, r ∈ relationships g -> entity r = e ->
     (2 <= score_of lower (split (lower e)) r)%Q)
  /\ (exists x, head results = Some x /\ (2 <= score x)%Q)
  /\ (length (candidates lower e g) <= 10 ->
      exists x, x ∈ results /\ entity (relationship x) = e
                /\ (2 <= score x)%Q).
Proof.
  cbv zeta. intros He Hc. set (g := build_knowledge_graph analyses) in *.
  assert (W : split (lower e) <> []).
  { apply runs_nonempty. by right. }
  assert (A : forall r, entity r = e ->
            (2 <= score_of lower (split (lower e)) r)%Q).
  { intros r <-. apply score_of_entity; [done |].
    intros w Hw. by apply split_contains. }
  assert (R : exists r, r ∈ relationships g /\ entity r = e).
  { unfold g in *. rewrite build_as_fold in *.
    destruct (fold_graph_spec (occurrences analyses)) as (_ & S & R & _).
    apply S in He as (p & Hp & Hw). exists (relationship_of p).
    split; [|done]. rewrite R. apply list_elem_of_fmap. by exists p. }
  destruct R as (r0 & Hr0 & Er0).
  set (x0 := {| relationship := r0;
                score := score_of lower (split (lower e)) r0 |}).
  assert (S0 : (2 <= score x0)%Q) by (apply A; done).
  assert (C0 : x0 ∈ candidates lower e g).
  { apply candidates_elem. exists r0. split_and!; [done | done |].
    eapply Qlt_le_trans; [|exact S0]. reflexivity. }
  split; [intros r _; apply A |]. split.
  - destruct (sorted_desc_head _ _ C0) as (h & Hh & Hle).
    exists h. split; [|by eapply Qle_trans].
    rewrite query_as_candidates.
    destruct (sorted_desc (candidates lower e g)); [done |]. exact Hh.
  - intros L. exists x0. split_and!; [|done | done].
    rewrite query_as_candidates, take_ge.
    + by rewrite sorted_desc_perm.
    + by rewrite sorted_desc_perm.
Qed.

(** The entity [अग्नि] of a graph of one relationship is found by its own
    string, with score 2. *)
Lemma query_own_entity_witness :
  exists x,
    x ∈ query_knowledge_graph lower_ascii (u "अग्नि")
          (graph_of_sentence (u "अग्नि यज्ञस्य") (u "RV 1"))
    /\ entity (relationship x) = u "अग्नि" /\ (2 <= score x)%Q.
Proof.
  refine (proj2 (proj2 (query_own_entity lower_ascii
    [ (analyze_rigveda_verse {| triples := [] |}
         (u "अग्नि यज्ञस्य") (u "RV 1")).1 ] (u "अग्नि") _ _)) _).
  - vm_compute. eexists. reflexivity.
  - exists 2309%N. split; [|reflexivity].
    apply list_elem_of_In. vm_compute. left. reflexivity.
  - vm_compute. repeat constructor.
Defined.

(** C5 (as stated) fails on the code. In a sentence with ten tokens [कक]
    before the token [क] all eleven relationships score 3 for the query
    [क]; the sort is stable and the result stops after ten records, so no
    record of the entity [क] is returned. An entity that is the empty
    string is in the graph as well, and its query has no word at all. *)
Lemma query_own_entity_counterexample :
  let g := graph_of_sentence (u "म कक कक कक कक कक कक कक कक कक कक क")
                             (u "RV 1") in
  let t := {| verb_root := u "अस्"; karaka := u "कर्ता"; word := [];
              devanagari := []; meaning := []; confidence := 0%float |} in
  let g' := build_knowledge_graph
              [ {| a_reference := Some (u "RV 1"); a_triples := Some [t] |} ] in
  (is_Some (entities g !! u "क")
   /\ ~ exists x, x ∈ query_knowledge_graph lower_ascii (u "क") g
                  /\ entity (relationship x) = u "क" /\ (2 <= score x)%Q)
  /\ (is_Some (entities g' !! [])
      /\ query_knowledge_graph lower_ascii [] g' = []).
Proof.
  cbv zeta. split; split.
  - vm_compute. eexists. reflexivity.
  - intros (x & Hx & He & _).
    assert (F : forallb
              (fun x => negb (bool_decide (entity (relationship x) = u "क")))
              (query_knowledge_graph lower_ascii (u "क")
                 (graph_of_sentence
                    (u "म कक कक कक कक कक कक कक कक कक कक क") (u "RV 1")))
              = true) by (vm_compute; reflexivity).
    rewrite forallb_forall in F. apply list_elem_of_In in Hx.
    specialize (F x Hx). apply negb_true_iff in F.
    apply bool_decide_eq_false in F. exact (F He).
  - vm_compute. eexists. reflexivity.
  - vm_compute. reflexivity.
Qed.

(** C9: for a lower-casing that leaves the two strings as they are (they
    have no upper-case letter), the query [agni] is not a substring of the
    entity [अग्नि]: a relationship with this entity gets nothing from the
    test of its entity, and it is not returned unless its verb or its
    relation contains the query. The empty query has no word, every score
    is 0 and the threshold [score > 0] leaves an empty result. *)
Theorem query_scripts_distinct (lower : str -> str) (g : Graph) :
  lower (u "agni") = u "agni" ->
  lower (u "अग्नि") = u "अग्नि" ->
  lower [] = [] ->
  (forall r, r ∈ relationships g -> entity r = u "अग्नि" ->
     contains (u "agni") (lower (entity r)) = false
     /\ (contains (u "agni") (lower (verb r)) = false ->
         contains (u "agni") (lower (relation r)) = false ->
         forall x, x ∈ query_knowledge_graph lower (u "agni") g ->
                   relationship x <> r))
  /\ query_knowledge_graph lower [] g = [].
Proof.
  intros Hq He Hn. split.
  - intros r Hr Er. rewrite Er, He. split; [by vm_compute |].
    intros Hv Hl x Hx <-.
    apply query_elem_candidates, candidates_elem in Hx
      as (r' & _ & -> & Hpos).
    cbn [relationship] in *. rewrite Hq in Hpos.
    change (split (u "agni")) with [u "agni"] in Hpos.
    unfold score_of in Hpos. cbn [foldl] in Hpos. unfold score_word in Hpos.
    rewrite Er, He, Hv, Hl in Hpos.
    replace (contains (u "agni") (u "अग्नि")) with false in Hpos
      by (by vm_compute).
    by apply Qlt_irrefl in Hpos.
  - rewrite query_as_candidates. unfold candidates. rewrite Hn.
    change (split []) with (@nil str).
    induction (relationships g) as [|r l IH]; [done |].
    cbn [flat_map]. exact IH.
Qed.

(** The two queries on the graph of the sentence [अग्नि यज्ञस्य]. *)
Lemma query_scripts_distinct_witness :
  query_knowledge_graph lower_ascii []
    (graph_of_sentence (u "अग्नि यज्ञस्य") (u "RV 1")) = [].
Proof.
  refine (proj2 (query_scripts_distinct lower_ascii
    (graph_of_sentence (u "अग्नि यज्ञस्य") (u "RV 1")) _ _ _)).
  - vm_compute. reflexivity.
  - vm_compute. reflexivity.
  - reflexivity.
Defined.

Lemma query_agni_example :
  let g := graph_of_sentence (u "अग्नि यज्ञस्य") (u "RV 1") in
  List.map entity (relationships g) = [u "अग्नि"]
  /\ query_knowledge_graph lower_ascii (u "agni") g = []
  /\ List.map (fun x => entity (relationship x))
       (query_knowledge_graph lower_ascii (u "अग्नि") g) = [u "अग्नि"].
Proof. vm_compute. repeat split. Qed.

(** ** The corpus loader *)

Module CorpusFacts.

Import Corpus CorpusSamples.

Lemma load_loop_app (l1 l2 : list json) (hymns : list RigVedaHymn) :
  load_loop (l1 ++ l2) hymns
  = match (load_loop l1 hymns).2 with
    | Return _ => load_loop l2 (load_loop l1 hymns).1
    | Raise e => ((load_loop l1 hymns).1, Raise e)
    end.
Proof.
  revert hymns. induction l1 as [|x l1 IH]; intros hymns; [done |].
  cbn [app load_loop]. destruct (convert x) as [[h|]|e]; [apply IH.. | done].
Qed.

(** An accepted record that lacks a required key raises [KeyError] in the
    conversion. *)
Lemma convert_missing_key (d : list (str * json)) (k : str) :
  accepted d = true -> k ∈ required_keys -> dict_get d k = None ->
  exists key, convert (JDict d) = Raise (KeyError key).
Proof.
  intros Ha Hk Hn. unfold convert. rewrite Ha. unfold subscript.
  destruct (dict_get d (u "book")) as [b|] eqn:Eb; [|by eexists].
  destruct (dict_get d (u "hymn")) as [h|] eqn:Eh; [|by eexists].
  destruct (dict_get d (u "reference")) as [r|] eqn:Er; [|by eexists].
  destruct (dict_get d (u "sanskrit")) as [s|] eqn:Es; [|by eexists].
  destruct (dict_get d (u "romanized")) as [z|] eqn:Ez; [|by eexists].
  exfalso. unfold required_keys in Hk.
  repeat (apply elem_of_cons in Hk as [-> | Hk]; [congruence |]).
  by apply elem_of_nil in Hk.
Qed.

(** No exception leaves [load_corpus]: whatever the file holds, the method
    returns [True] or [False]. *)
Lemma load_corpus_returns (file : outcome json) (hymns : list RigVedaHymn) :
  exists b, (load_corpus file hymns).2 = Return b.
Proof.
  unfold load_corpus. cbn [snd].
  destruct (load_corpus_try file hymns).2; by eexists.
Qed.

(** C2 (as amended): when a record with status ['complete'] and a
    non-empty text lacks a key read by subscript, the [KeyError] raised in
    the [try] block is caught: [load_corpus] returns [False], and the hymns
    converted from the records before that one stay in [self.hymns]. *)
Theorem load_corpus_schema_violation (before after : list json)
    (d : list (str * json)) (k : str) (hymns kept : list RigVedaHymn) :
  load_loop before hymns = (kept, Return tt) ->
  accepted d = true ->
  k ∈ required_keys ->
  dict_get d k = None ->
  (exists key,
     load_corpus_try (Return (JList (before ++ JDict d :: after))) hymns
     = (kept, Raise (KeyError key)))
  /\ load_corpus (Return (JList (before ++ JDict d :: after))) hymns
     = (kept, Return false).
Proof.
  intros Hb Ha Hk Hn.
  destruct (convert_missing_key d k Ha Hk Hn) as [key Hc].
  assert (T : load_corpus_try (Return (JList (before ++ JDict d :: after)))
                hymns = (kept, Raise (KeyError key))).
  { unfold load_corpus_try, items_of. rewrite load_loop_app, Hb.
    cbn [fst snd load_loop]. rewrite Hc. reflexivity. }
  split; [by exists key |].
  unfold load_corpus. rewrite T. reflexivity.
Qed.

(** A corpus of three records, the second one without ['book']. *)
Lemma load_corpus_schema_violation_witness :
  (load_corpus
     (Return (JList ([complete_record]
                     ++ JDict record_without_book :: [complete_record])))
     []).2 = Return false.
Proof.
  refine (f_equal snd (proj2 (load_corpus_schema_violation
    [complete_record] [complete_record] record_without_book (u "book") []
    (load_loop [complete_record] []).1 _ _ _ _))).
  - vm_compute. reflexivity.
  - vm_compute. reflexivity.
  - unfold required_keys. apply elem_of_cons. left. reflexivity.
  - vm_compute. reflexivity.
Defined.

(** C2 (as stated) fails on the code: the second record of this corpus has
    status ['complete'], a text and no ['book']; the [try] block raises
    [KeyError], but [load_corpus] raises nothing and returns [False], and
    [self.hymns] keeps the hymn of the first record. *)
Lemma load_corpus_counterexample :
  let file := Return (JList [complete_record; JDict record_without_book;
                             complete_record]) in
  accepted record_without_book = true
  /\ dict_get record_without_book (u "book") = None
  /\ (load_corpus_try file []).2 = Raise (KeyError (u "book"))
  /\ (load_corpus file []).2 = Return false
  /\ (forall e, (load_corpus file []).2 <> Raise e)
  /\ length (load_corpus file []).1 = 1%nat.
Proof.
  cbv zeta. split_and!; try (vm_compute; reflexivity).
  intros e. vm_compute. discriminate.
Qed.

End CorpusFacts.

(** * Further properties *)

(** ** The tokenizer *)

Lemma runs_tokens (sep : N -> bool) (s cur w : str) :
  Forall (fun c => sep c = false) cur ->
  w ∈ runs sep s cur ->
  w <> [] /\ Forall (fun c => sep c = false) w.
Proof.
  revert cur. induction s as [|c s IH]; intros cur Hcur; cbn [runs].
  - destruct cur as [|d cur]; [by intros ?%elem_of_nil |].
    by intros ->%list_elem_of_singleton.
  - destruct (sep c) eqn:E.
    + destruct cur as [|d cur]; [by apply IH |].
      intros [-> | H]%elem_of_cons; [done | by apply (IH [])].
    + apply IH. apply Forall_app. split; [done | by constructor].
Qed.

Lemma runs_app_token (sep : N -> bool) (w s cur : str) :
  Forall (fun c => sep c = false) w ->
  runs sep (w ++ s) cur = runs sep s (cur ++ w).
Proof.
  revert cur. induction w as [|c w IH]; intros cur H.
  - by rewrite app_nil_r.
  - apply Forall_cons in H as [Hc Hw]. cbn [app runs]. rewrite Hc.
    rewrite IH by done. by rewrite <- app_assoc.
Qed.

Lemma runs_join (sep : N -> bool) (b : N) (ws : list str) :
  sep b = true ->
  Forall (fun w => w <> [] /\ Forall (fun c => sep c = false) w) ws ->
  runs sep (join [b] ws) [] = ws.
Proof.
  intros Hb. induction ws as [|w ws IH]; intros H; [done |].
  apply Forall_cons in H as [[Hne Hw] Hws].
  destruct ws as [|w' ws].
  - cbn [join]. rewrite <- (app_nil_r w) at 1.
    rewrite runs_app_token by done. cbn [runs app]. by destruct w.
  - change (join [b] (w :: w' :: ws)) with (w ++ b :: join [b] (w' :: ws)).
    rewrite runs_app_token by done. cbn [runs app]. rewrite Hb.
    destruct w as [|c w]; [done |]. f_equal. by apply IH.
Qed.

(** X1: every token that [re.findall(r'[^\s।॥]+', sentence)] gives is a
    non-empty string without white space, danda or double danda, and the
    tokens joined by single spaces are tokenized into the same tokens. *)
Theorem words_of_tokens (sentence : str) :
  Forall token (words_of sentence)
  /\ words_of (join (u " ") (words_of sentence)) = words_of sentence.
Proof.
  assert (T : Forall token (words_of sentence)).
  { apply Forall_forall. intros w Hw.
    by apply (runs_tokens separator sentence []). }
  split; [exact T |].
  unfold words_of at 1. change (u " ") with [32%N].
  apply runs_join; [reflexivity | exact T].
Qed.

(** ** The triple extractor *)

Lemma karaka_loop_elem (mv : option str) (vr : str) (words : list str)
    (t : SanskritTriple) :
  t ∈ karaka_loop mv vr words ->
  exists w, w ∈ words /\ Some w <> mv /\ t = make_triple vr w.
Proof.
  induction words as [|w words IH]; [by intros ?%elem_of_nil |].
  cbn [karaka_loop]. destruct (decide (Some w = mv)) as [E|E].
  - rewrite bool_decide_eq_true_2 by done.
    intros (w' & Hw & Hn & Ht)%IH. exists w'. split; [by right | done].
  - rewrite bool_decide_eq_false_2 by done.
    intros [-> | (w' & Hw & Hn & Ht)%IH]%elem_of_cons.
    + exists w. split; [by left | done].
    + exists w'. split; [by right | done].
Qed.

Lemma karaka_of_label (c : Case) :
  karaka_of c ∈ [u "कर्ता"; u "कर्म"; u "करण"; u "सम्प्रदान"; u "अपादान";
                 u "अधिकरण"].
Proof.
  destruct c; apply list_elem_of_In; vm_compute; tauto.
Qed.

Lemma label_not_possessor (k : str) :
  k ∈ [u "कर्ता"; u "कर्म"; u "करण"; u "सम्प्रदान"; u "अपादान"; u "अधिकरण"] ->
  k ∈ List.map fst karaka_relations /\ k <> u "सम्बन्ध".
Proof.
  intros H.
  repeat (apply elem_of_cons in H as [-> | H];
          [split; [apply list_elem_of_In; vm_compute; tauto
                  | vm_compute; discriminate] |]).
  by apply elem_of_nil in H.
Qed.

(** X2: the karaka of every triple that the extractor returns is one of the
    six keys [कर्ता], [कर्म], [करण], [सम्प्रदान], [अपादान], [अधिकरण] of
    [karaka_relations]; the seventh key, [सम्बन्ध] (possessor), is never
    assigned. *)
Theorem extract_karaka_labels (self : Analyzer) (sentence : str) :
  Forall (fun t => karaka t ∈ List.map fst karaka_relations
                   /\ karaka t <> u "सम्बन्ध")
         (extract_semantic_triples self sentence).1.
Proof.
  apply Forall_forall. intros t Ht.
  unfold extract_semantic_triples in Ht. cbn [fst] in Ht.
  apply karaka_loop_elem in Ht as (w & _ & _ & ->).
  apply label_not_possessor. unfold make_triple. cbn [karaka].
  apply karaka_of_label.
Qed.


Lemma verb_roots_keys_nonempty (r : str) :
  r ∈ List.map fst verb_roots -> r <> [].
Proof.
  intros H Hr. subst r. apply list_elem_of_In in H.
  vm_compute in H. repeat (destruct H as [H | H]; [discriminate H |]).
  exact H.
Qed.

Lemma first_root_key (w r : str) :
  first_root w = Some r -> r ∈ List.map fst verb_roots.
Proof.
  unfold first_root, matching_roots. intros H.
  destruct (List.filter _ verb_roots) as [|item l] eqn:E; [discriminate H |].
  injection H as <-.
  assert (Hin : In item (List.filter (fun item => root_matches w item.1)
                                     verb_roots)).
  { rewrite E. by left. }
  apply filter_In in Hin as [Hin _].
  apply list_elem_of_In, in_map, Hin.
Qed.

Lemma first_root_empty : first_root [] = None.
Proof. vm_compute. reflexivity. Qed.

Lemma first_root_none (w : str) (item : str * str) :
  first_root w = None -> item ∈ verb_roots -> root_matches w item.1 = false.
Proof.
  unfold first_root, matching_roots. intros H Hi.
  destruct (List.filter _ verb_roots) as [|x l] eqn:E; [|discriminate H].
  apply not_true_is_false. intros Hm.
  assert (Hin : In item (List.filter (fun item => root_matches w item.1)
                                     verb_roots)).
  { apply filter_In. split; [by apply list_elem_of_In | exact Hm]. }
  rewrite E in Hin. destruct Hin.
Qed.

(** The search of one word in the main-verb loop. *)
Lemma find_is_verb (w : str) :
  List.find is_verb (m_possible_roots (analyze_morphology w))
  = root_info_of <$> head (matching_roots w verb_roots).
Proof.
  destruct (analyze_morphology_spec w) as (R & _ & _). rewrite R.
  destruct (matching_roots w verb_roots) as [|item l]; [reflexivity |].
  cbn [List.map List.find]. unfold is_verb, root_info_of at 1.
  cbn [r_type]. rewrite bool_decide_eq_true_2 by reflexivity. reflexivity.
Qed.

Lemma find_main_verb_none (words : list str) :
  (forall w, w ∈ words -> first_root w = None) ->
  find_main_verb words None None = (None, None).
Proof.
  induction words as [|w words IH]; intros H; [reflexivity |].
  cbn [find_main_verb]. rewrite find_is_verb.
  assert (Hw : first_root w = None) by (apply H; by left).
  unfold first_root in Hw.
  destruct (head (matching_roots w verb_roots)); [discriminate Hw |].
  cbn [fmap option_fmap option_map fst snd truthy_opt].
  apply IH. intros x Hx. apply H. by right.
Qed.

Lemma find_main_verb_first (pre post : list str) (w r : str) :
  (forall x, x ∈ pre -> first_root x = None) ->
  first_root w = Some r ->
  find_main_verb (pre ++ w :: post) None None = (Some w, Some r).
Proof.
  intros Hpre Hw.
  assert (Hne : truthy w = true).
  { destruct w; [|reflexivity]. rewrite first_root_empty in Hw.
    discriminate Hw. }
  induction pre as [|x pre IH].
  - cbn [app find_main_verb]. rewrite find_is_verb.
    unfold first_root in Hw.
    destruct (head (matching_roots w verb_roots)) as [item|];
      [|discriminate Hw].
    injection Hw as <-.
    cbn [fmap option_fmap option_map fst snd truthy_opt root_info_of root].
    rewrite Hne. reflexivity.
  - cbn [app find_main_verb]. rewrite find_is_verb.
    assert (Hx : first_root x = None) by (apply Hpre; by left).
    unfold first_root in Hx.
    destruct (head (matching_roots x verb_roots)); [discriminate Hx |].
    cbn [fmap option_fmap option_map fst snd truthy_opt].
    apply IH. intros y Hy. apply Hpre. by right.
Qed.


Lemma praise_is_root (w p : str) :
  p ∈ praise_patterns -> contains p w = true -> first_root w <> None.
Proof.
  intros Hp Hc Hn.
  assert (K : exists m, (p, m) ∈ verb_roots).
  { unfold praise_patterns in Hp.
    repeat (apply elem_of_cons in Hp as [-> | Hp];
            [eexists; apply list_elem_of_In; vm_compute; tauto |]).
    by apply elem_of_nil in Hp. }
  destruct K as [m Hm].
  pose proof (first_root_none w (p, m) Hn Hm) as F.
  unfold root_matches in F. cbn [fst] in F. rewrite Hc in F. discriminate F.
Qed.

Lemma find_praise_verb_none (words : list str) :
  (forall w, w ∈ words -> first_root w = None) ->
  find_praise_verb words None None = (None, None).
Proof.
  induction words as [|w words IH]; intros H; [reflexivity |].
  cbn [find_praise_verb].
  replace (existsb (fun vr => contains vr w) praise_patterns) with false.
  - apply IH. intros x Hx. apply H. by right.
  - symmetry. apply not_true_is_false. intros (p & Hp & Hc)%existsb_exists.
    apply (praise_is_root w p); [by apply list_elem_of_In | exact Hc |].
    apply H. by left.
Qed.

Lemma select_verb_default (words : list str) :
  (forall w, w ∈ words -> first_root w = None) ->
  select_verb words
  = (Some (match words with w :: _ => w | [] => u "unknown" end), u "अस्").
Proof.
  intros H. unfold select_verb. rewrite find_main_verb_none by done.
  cbn [fst snd truthy_opt negb]. rewrite find_praise_verb_none by done.
  reflexivity.
Qed.

Lemma select_verb_first (pre post : list str) (w r : str) :
  (forall x, x ∈ pre -> first_root x = None) ->
  first_root w = Some r ->
  select_verb (pre ++ w :: post) = (Some w, r).
Proof.
  intros Hpre Hw. unfold select_verb.
  rewrite (find_main_verb_first pre post w r) by done.
  assert (T : truthy r = true).
  { pose proof (verb_roots_keys_nonempty r (first_root_key w r Hw)).
    by destruct r. }
  cbn [fst snd truthy_opt negb]. rewrite T. cbn [negb fst snd].
  rewrite T. reflexivity.
Qed.

Lemma first_root_split (words : list str) :
  (forall w, w ∈ words -> first_root w = None)
  \/ exists pre w post r,
       words = pre ++ w :: post
       /\ (forall x, x ∈ pre -> first_root x = None)
       /\ first_root w = Some r.
Proof.
  induction words as [|x words IH].
  - left. by intros w ?%elem_of_nil.
  - destruct (first_root x) as [r|] eqn:E.
    + right. exists [], x, words, r. split_and!; [done | | done].
      by intros y ?%elem_of_nil.
    + destruct IH as [H | (pre & w & post & r & -> & Hpre & Hw)].
      * left. intros w [-> | Hw]%elem_of_cons; [done | by apply H].
      * right. exists (x :: pre), w, post, r. split_and!; [done | | done].
        intros y [-> | Hy]%elem_of_cons; [done | by apply Hpre].
Qed.

(** X3: the anchor is the first token in which a verb root is found (as a
    substring, or as a prefix once the virama is removed from the root), and
    the verb root chosen is the first such root in the order of
    [verb_roots]. *)
Theorem anchor_is_first_token_with_root (pre post : list str) (w r : str) :
  (forall x, x ∈ pre -> first_root x = None) ->
  first_root w = Some r ->
  select_verb (pre ++ w :: post) = (Some w, r)
  /\ r ∈ List.map fst verb_roots
  /\ root_matches w r = true.
Proof.
  intros Hpre Hw. split; [by apply select_verb_first |].
  split; [by apply (first_root_key w) |].
  unfold first_root, matching_roots in Hw.
  destruct (List.filter _ verb_roots) as [|item l] eqn:E; [discriminate Hw |].
  injection Hw as <-.
  assert (Hin : In item (List.filter (fun item => root_matches w item.1)
                                     verb_roots)).
  { rewrite E. by left. }
  by apply filter_In in Hin as [_ Hin].
Qed.

(** In [अग्निमीळे पुरोहितं यज्ञस्य देवमृत्विजम्] the third token is the first
    one with a root. *)
Lemma anchor_is_first_token_with_root_witness :
  select_verb ([u "अग्निमीळे"; u "पुरोहितं"] ++ u "यज्ञस्य" :: [u "देवमृत्विजम्"])
  = (Some (u "यज्ञस्य"), u "यज्").
Proof.
  refine (proj1 (anchor_is_first_token_with_root
    [u "अग्निमीळे"; u "पुरोहितं"] [u "देवमृत्विजम्"] (u "यज्ञस्य") (u "यज्") _ _)).
  - intros x Hx.
    repeat (apply elem_of_cons in Hx as [-> | Hx];
            [vm_compute; reflexivity |]).
    by apply elem_of_nil in Hx.
  - vm_compute. reflexivity.
Defined.

(** X4: the second step of the verb search (the praise patterns [इड्],
    [स्तु], [यज्], [गै]) never decides: the four patterns are keys of
    [verb_roots], so when no token has a verb root no token contains a
    pattern either, and the extractor takes the default root [अस्] with the
    first token as anchor. *)
Theorem praise_step_never_decides (words : list str) :
  (forall w, w ∈ words -> first_root w = None) ->
  (forall w p, w ∈ words -> p ∈ praise_patterns -> contains p w = false)
  /\ find_praise_verb words None None = (None, None)
  /\ select_verb words
     = (Some (match words with w :: _ => w | [] => u "unknown" end), u "अस्").
Proof.
  intros H. split_and!.
  - intros w p Hw Hp. apply not_true_is_false. intros Hc.
    by apply (praise_is_root w p Hp Hc), H.
  - by apply find_praise_verb_none.
  - by apply select_verb_default.
Qed.

Lemma praise_step_never_decides_witness :
  select_verb [u "पुरोहितं"; u "देवमृत्विजम्"]
  = (Some (u "पुरोहितं"), u "अस्").
Proof.
  refine (proj2 (proj2 (praise_step_never_decides
    [u "पुरोहितं"; u "देवमृत्विजम्"] _))).
  intros x Hx.
  repeat (apply elem_of_cons in Hx as [-> | Hx]; [vm_compute; reflexivity |]).
  by apply elem_of_nil in Hx.
Defined.

(** X5: all the triples of one sentence carry the same verb root, and this
    root is always a key of [verb_roots] (the default [अस्] included). *)
Theorem extract_verb_root_known (self : Analyzer) (sentence : str) :
  let v := (select_verb (words_of sentence)).2 in
  v ∈ List.map fst verb_roots
  /\ Forall (fun t => verb_root t = v)
            (extract_semantic_triples self sentence).1.
Proof.
  cbv zeta. split; [|apply karaka_loop_verb_root].
  destruct (first_root_split (words_of sentence))
    as [H | (pre & w & post & r & -> & Hpre & Hw)].
  - rewrite select_verb_default by done. cbn [snd].
    apply list_elem_of_In. vm_compute. tauto.
  - rewrite (select_verb_first pre post w r) by done. cbn [snd].
    by apply (first_root_key w).
Qed.


(** ** The vocabulary and the graph *)

Lemma foldl_insert_lookup (l : list (str * VocabEntry))
    (m : gmap str VocabEntry) (k : str) (v : VocabEntry) :
  foldl (fun m kv => <[kv.1 := kv.2]> m) m l !! k = Some v ->
  (k, v) ∈ l \/ m !! k = Some v.
Proof.
  revert m. induction l as [|[k' v'] l IH]; intros m; cbn [foldl].
  - by right.
  - intros [H | H]%IH; [left; by right |].
    cbn [fst snd] in H. destruct (decide (k' = k)) as [->|N].
    + rewrite lookup_insert_eq in H. injection H as ->. left. by left.
    + rewrite lookup_insert_ne in H by done. by right.
Qed.

(** Every entry of the vocabulary has a non-empty meaning and a domain. *)
Lemma vocabulary_entries (w : str) (entry : VocabEntry) :
  vedic_vocabulary !! w = Some entry ->
  v_meaning entry <> [] /\ is_Some (v_domain entry).
Proof.
  intros H. unfold vedic_vocabulary in H.
  apply foldl_insert_lookup in H as [H | H];
    [|rewrite lookup_empty in H; discriminate H].
  assert (C : forallb (fun kv : str * VocabEntry =>
                truthy (v_meaning kv.2)
                && match v_domain kv.2 with Some _ => true | None => false end)
              (deities ++ ritual_terms ++ cosmic_terms) = true)
    by (vm_compute; reflexivity).
  rewrite forallb_forall in C. apply list_elem_of_In in H.
  specialize (C _ H). cbn [snd] in C. apply andb_true_iff in C as [C1 C2].
  split.
  - intros E. rewrite E in C1. discriminate C1.
  - destruct (v_domain entry); [by eexists | discriminate C2].
Qed.

Lemma meaning_of_truthy (w : str) :
  truthy (meaning_of w) = true <-> is_Some (vedic_vocabulary !! w).
Proof.
  unfold meaning_of. destruct (vedic_vocabulary !! w) as [entry|] eqn:E.
  - destruct (vocabulary_entries w entry E) as [Hm _].
    split; [by eexists |]. intros _. by destruct (v_meaning entry).
  - split; [discriminate | by intros [? ?]].
Qed.

(** X6: a triple of the extractor repeats its token in [word] and
    [devanagari]; its meaning is not empty exactly when the token is, as a
    whole string, a key of the vocabulary; its confidence is the one of the
    morphology guess of the token and is not negative. *)
Theorem extract_triple_fields (self : Analyzer) (sentence : str) :
  Forall (fun t =>
            word t ∈ words_of sentence
            /\ devanagari t = word t
            /\ (meaning t <> [] <-> is_Some (vedic_vocabulary !! word t))
            /\ confidence t = m_confidence (analyze_morphology (word t))
            /\ PrimFloat.leb 0%float (confidence t) = true)
         (extract_semantic_triples self sentence).1.
Proof.
  apply Forall_forall. intros t Ht.
  unfold extract_semantic_triples in Ht. cbn [fst] in Ht.
  apply karaka_loop_elem in Ht as (w & Hw & _ & ->).
  unfold make_triple. cbn [word devanagari meaning confidence].
  split_and!; [done | done | | done |].
  - rewrite <- meaning_of_truthy. by destruct (meaning_of w).
  - destruct (analyze_morphology_spec w) as (_ & H & _). rewrite H.
    apply confidence_value_nonneg; apply filter_length_le.
Qed.


Lemma resolved_domain_vocab (t : SanskritTriple) (d : str) :
  resolved_domain t = Some d -> d = vocab_domain (word t).
Proof.
  unfold resolved_domain, vocab_domain.
  destruct (truthy (meaning t)); [|discriminate].
  destruct (vedic_vocabulary !! word t); [|discriminate].
  cbn [fmap option_fmap option_map]. by intros [= <-].
Qed.

Lemma add_triple_domain (v : str) (g : Graph) (t : SanskritTriple) :
  entity_domain (add_triple v g t) (word t)
  = Some (match resolved_domain t with
          | Some d => d
          | None => default (u "unknown") (entity_domain g (word t))
          end).
Proof.
  unfold entity_domain, add_triple, resolved_domain. cbn [entities].
  rewrite lookup_insert_eq. cbn [fmap option_fmap option_map].
  destruct (truthy (meaning t)).
  - destruct (vedic_vocabulary !! word t); cbn [domain option_map];
      [reflexivity |].
    by destruct (entities g !! word t).
  - cbn [domain]. by destruct (entities g !! word t).
Qed.

(** The domain stored for an entity after the visit of a list of pairs. *)
Lemma fold_graph_domain (occs : list (str * SanskritTriple)) (e d : str) :
  entity_domain (foldl add_occurrence empty_graph occs) e = Some d ->
  ((exists p, p ∈ occs /\ word p.2 = e /\ is_Some (resolved_domain p.2)) ->
   d = vocab_domain e)
  /\ (~ (exists p, p ∈ occs /\ word p.2 = e /\ is_Some (resolved_domain p.2)) ->
      d = u "unknown").
Proof.
  revert d. induction occs as [|[v t] occs IH] using rev_ind; intros d.
  - cbn [foldl]. unfold entity_domain, empty_graph. cbn [entities].
    rewrite lookup_empty. discriminate.
  - rewrite foldl_app. cbn [foldl]. unfold add_occurrence at 1. cbn [fst snd].
    set (g := foldl add_occurrence empty_graph occs) in *.
    destruct (decide (e = word t)) as [->|N].
    + rewrite add_triple_domain. intros [= <-].
      destruct (resolved_domain t) as [d'|] eqn:R.
      * split; [intros _; by apply resolved_domain_vocab |].
        intros H. destruct H. exists (v, t). split_and!; [|done |].
        -- apply elem_of_app. right. by left.
        -- cbn [snd]. rewrite R. by eexists.
      * assert (Q : (exists p, p ∈ occs ++ [(v, t)] /\ word p.2 = word t
                               /\ is_Some (resolved_domain p.2))
                    <-> (exists p, p ∈ occs /\ word p.2 = word t
                                   /\ is_Some (resolved_domain p.2))).
        { split; intros (p & Hp & Hw & Hr).
          - exists p. split; [|done].
            apply elem_of_app in Hp as [Hp | Hp]; [done |].
            apply list_elem_of_singleton in Hp as ->. cbn [snd] in Hr.
            rewrite R in Hr. by destruct Hr.
          - exists p. split; [|done]. apply elem_of_app. by left. }
        rewrite Q. destruct (entity_domain g (word t)) as [d0|] eqn:E.
        -- cbn [default]. by apply IH.
        -- cbn [default]. split; [|done]. intros (p & Hp & Hw & _).
           destruct (fold_graph_spec occs) as (_ & S & _).
           assert (Hs : is_Some (entities g !! word t)).
           { apply S. by exists p. }
           unfold entity_domain in E. destruct Hs as [i Hi].
           rewrite Hi in E. discriminate E.
    + unfold entity_domain. rewrite add_triple_other by done.
      fold (entity_domain g e). intros H. apply IH in H as [H1 H2].
      assert (Q : (exists p, p ∈ occs ++ [(v, t)] /\ word p.2 = e
                             /\ is_Some (resolved_domain p.2))
                  <-> (exists p, p ∈ occs /\ word p.2 = e
                                 /\ is_Some (resolved_domain p.2))).
      { split; intros (p & Hp & Hw & Hr).
        - exists p. split; [|done].
          apply elem_of_app in Hp as [Hp | Hp]; [done |].
          apply list_elem_of_singleton in Hp as ->. by destruct N.
        - exists p. split; [|done]. apply elem_of_app. by left. }
      by rewrite Q.
Qed.

(** X7: the domain recorded for an entity of the graph is never a stale or
    a foreign one: it is the domain of the vocabulary entry of the entity
    when one of the triples on that entity has a non-empty meaning and the
    entity is a key of the vocabulary, and ['unknown'] otherwise. *)
Theorem graph_entity_domain (analyses : list Analysis) (e d : str) :
  entity_domain (build_knowledge_graph analyses) e = Some d ->
  ((exists p, p ∈ occurrences analyses /\ word p.2 = e
              /\ is_Some (resolved_domain p.2)) ->
   d = vocab_domain e)
  /\ (~ (exists p, p ∈ occurrences analyses /\ word p.2 = e
                   /\ is_Some (resolved_domain p.2)) ->
      d = u "unknown").
Proof. rewrite build_as_fold. apply fold_graph_domain. Qed.

Lemma graph_entity_domain_witness :
  u "fire" = vocab_domain (u "अग्नि").
Proof.
  refine (proj1 (graph_entity_domain
    [ (analyze_rigveda_verse {| triples := [] |}
         (u "अग्नि यज्ञस्य") (u "RV 1")).1 ] (u "अग्नि") (u "fire") _) _).
  - vm_compute. reflexivity.
  - eexists. split_and!.
    + apply list_elem_of_In. vm_compute. left. reflexivity.
    + vm_compute. reflexivity.
    + vm_compute. eexists. reflexivity.
Defined.

Lemma extracted_meanings (self : Analyzer) (sentence : str) :
  Forall (fun t => meaning t = meaning_of (word t))
         (extract_semantic_triples self sentence).1.
Proof.
  apply Forall_forall. intros t Ht.
  unfold extract_semantic_triples in Ht. cbn [fst] in Ht.
  by apply karaka_loop_elem in Ht as (w & _ & _ & ->).
Qed.

(** X8: in a graph built from analyses made by the extractor (the meaning
    of a triple is the vocabulary meaning of its word), every entity has the
    domain of its vocabulary entry, and ['unknown'] when it is not a key of
    the vocabulary. *)
Theorem graph_domain_of_extracted (analyses : list Analysis) (e d : str) :
  Forall (fun a => Forall (fun t => meaning t = meaning_of (word t))
                          (triples_of a)) analyses ->
  entity_domain (build_knowledge_graph analyses) e = Some d ->
  d = vocab_domain e.
Proof.
  intros Hm Hd.
  assert (He : is_Some (entities (build_knowledge_graph analyses) !! e)).
  { unfold entity_domain in Hd.
    destruct (entities (build_knowledge_graph analyses) !! e);
      [by eexists | discriminate Hd]. }
  rewrite build_as_fold in Hd, He.
  destruct (fold_graph_spec (occurrences analyses)) as (_ & S & _).
  apply S in He as ([v t] & Hp & Hw). cbn [snd] in Hw.
  assert (Ht : meaning t = meaning_of (word t)).
  { unfold occurrences in Hp. apply list_elem_of_In, in_flat_map in Hp
      as (a & Ha & Hp).
    rewrite Forall_forall in Hm.
    specialize (Hm a (proj2 (list_elem_of_In _ _) Ha)).
    rewrite Forall_forall in Hm. apply in_map_iff in Hp as (t' & [= _ ->] & Ht).
    apply Hm. by apply list_elem_of_In. }
  destruct (fold_graph_domain _ _ _ Hd) as [H1 H2].
  destruct (vedic_vocabulary !! e) as [entry|] eqn:V.
  - apply H1. exists (v, t). split_and!; [done | done |].
    cbn [snd]. unfold resolved_domain. rewrite Ht, Hw.
    rewrite (proj2 (meaning_of_truthy e)) by (rewrite V; by eexists).
    rewrite V. by eexists.
  - unfold vocab_domain. rewrite V. apply H2.
    intros ([v' t'] & Hp' & Hw' & Hr). cbn [snd] in Hw', Hr.
    unfold resolved_domain in Hr. rewrite Hw', V in Hr.
    destruct (truthy (meaning t')); by destruct Hr.
Qed.

Lemma graph_domain_of_extracted_witness :
  u "fire" = vocab_domain (u "अग्नि").
Proof.
  refine (graph_domain_of_extracted
    [ (analyze_rigveda_verse {| triples := [] |}
         (u "अग्नि यज्ञस्य") (u "RV 1")).1 ] (u "अग्नि") (u "fire") _ _).
  - constructor; [|constructor].
    exact (extracted_meanings {| triples := [] |} (u "अग्नि यज्ञस्य")).
  - vm_compute. reflexivity.
Defined.


(** ** Ranking of the query results *)

Lemma insert_desc_sorted (x : QueryResult) (l : list QueryResult) :
  StronglySorted (fun a b => (score b <= score a)%Q) l ->
  StronglySorted (fun a b => (score b <= score a)%Q) (insert_desc x l).
Proof.
  induction l as [|y l IH]; intros H; cbn [insert_desc].
  - repeat constructor.
  - apply StronglySorted_inv in H as [Hl Hy].
    destruct (Qlt_bool (score x) (score y)) eqn:L.
    + constructor; [by apply IH |].
      rewrite insert_desc_perm. constructor; [|exact Hy].
      apply Qlt_le_weak. by apply Qlt_bool_iff.
    + assert (Hyx : (score y <= score x)%Q).
      { apply Qle_bool_iff. unfold Qlt_bool in L.
        by apply negb_false_iff in L. }
      constructor; [by constructor |].
      constructor; [exact Hyx |].
      eapply Forall_impl; [exact Hy |]. intros z Hz. cbn beta in *.
      by apply Qle_trans with (score y).
Qed.

Lemma sorted_desc_sorted (l : list QueryResult) :
  StronglySorted (fun a b => (score b <= score a)%Q) (sorted_desc l).
Proof.
  induction l as [|x l IH]; [constructor |].
  unfold sorted_desc in *. cbn [foldr]. by apply insert_desc_sorted.
Qed.

Lemma sorted_take_drop (l : list QueryResult) (n : nat) (x y : QueryResult) :
  StronglySorted (fun a b => (score b <= score a)%Q) l ->
  x ∈ take n l -> y ∈ drop n l -> (score y <= score x)%Q.
Proof.
  revert n. induction l as [|z l IH]; intros n H Hx Hy.
  - rewrite take_nil in Hx. by apply elem_of_nil in Hx.
  - apply StronglySorted_inv in H as [Hl Hz]. destruct n as [|n].
    + by apply elem_of_nil in Hx.
    + cbn [take drop] in Hx, Hy. apply elem_of_cons in Hx as [-> | Hx].
      * rewrite Forall_forall in Hz. apply Hz.
        by apply (subseteq_drop n l y).
      * by apply (IH n).
Qed.

Lemma sorted_take (l : list QueryResult) (n : nat) :
  StronglySorted (fun a b => (score b <= score a)%Q) l ->
  StronglySorted (fun a b => (score b <= score a)%Q) (take n l).
Proof.
  revert n. induction l as [|z l IH]; intros n H.
  - rewrite take_nil. constructor.
  - destruct n as [|n]; [constructor |]. cbn [take].
    apply StronglySorted_inv in H as [Hl Hz].
    constructor; [by apply IH |].
    rewrite Forall_forall in *. intros y Hy. apply Hz.
    by apply (subseteq_take n l y).
Qed.

Section RankingFacts.

Variable lower : str -> str.

Lemma score_word_le (r : Relationship) (s : Q) (w : str) :
  (score_word lower r s w <= s + (9 # 2))%Q.
Proof.
  unfold score_word.
  destruct (contains w (lower (entity r))),
           (contains w (lower (verb r))),
           (contains w (lower (relation r))); lra.
Qed.

Lemma score_fold_le (r : Relationship) (ws : list str) (s : Q) :
  (foldl (score_word lower r) s ws
   <= s + (9 # 2) * inject_Z (Z.of_nat (length ws)))%Q.
Proof.
  revert s. induction ws as [|w ws IH]; intros s.
  - cbn [foldl length]. change (inject_Z (Z.of_nat 0)) with 0%Q. lra.
  - cbn [foldl length]. eapply Qle_trans; [apply IH |].
    pose proof (score_word_le r s w) as H.
    rewrite (Nat2Z.inj_succ (length ws)). unfold Z.succ.
    rewrite inject_Z_plus. change (inject_Z 1) with 1%Q. lra.
Qed.

(** X9: the result of a query has at most ten records; each of them holds
    a relationship of the graph with its score for the words of the
    lower-cased query, which is above 0 and at most 4.5 for each word of the
    query. *)
Theorem query_results_sound (query : str) (g : Graph) :
  let ws := split (lower query) in
  let results := query_knowledge_graph lower query g in
  length results <= 10
  /\ Forall (fun x =>
               relationship x ∈ relationships g
               /\ score x = score_of lower ws (relationship x)
               /\ (0 < score x)%Q
               /\ (score x <= (9 # 2) * inject_Z (Z.of_nat (length ws)))%Q)
            results.
Proof.
  cbv zeta. split.
  - rewrite query_as_candidates, length_take. lia.
  - apply Forall_forall. intros x Hx.
    apply query_elem_candidates, candidates_elem in Hx
      as (r & Hr & -> & Hpos).
    cbn [relationship score]. split_and!; [done | done | done |].
    pose proof (score_fold_le r (split (lower query)) 0) as H.
    unfold score_of. lra.
Qed.

(** X10: the records are returned by score, the best first, and the cut
    after ten records only leaves out records that score no more than every
    record returned: a relationship that scores above a returned record is
    returned as well, and nothing is left out when at most ten
    relationships score above 0. *)
Theorem query_results_ranked (query : str) (g : Graph) :
  let results := query_knowledge_graph lower query g in
  StronglySorted (fun a b => (score b <= score a)%Q) results
  /\ (forall x y, x ∈ results -> y ∈ candidates lower query g ->
        (score x < score y)%Q -> y ∈ results)
  /\ (length (candidates lower query g) <= 10 ->
      results ≡ₚ candidates lower query g).
Proof.
  cbv zeta. rewrite query_as_candidates.
  pose proof (sorted_desc_sorted (candidates lower query g)) as S.
  split_and!.
  - by apply sorted_take.
  - intros x y Hx Hy L.
    rewrite <- (sorted_desc_perm (candidates lower query g)) in Hy.
    rewrite <- (take_drop 10 (sorted_desc (candidates lower query g))) in Hy.
    apply elem_of_app in Hy as [Hy | Hy]; [exact Hy |].
    pose proof (sorted_take_drop _ 10 x y S Hx Hy) as Hle.
    exfalso. by apply Qlt_not_le in L.
  - intros L. rewrite take_ge by (by rewrite sorted_desc_perm).
    apply sorted_desc_perm.
Qed.

(** X11: a query without a code point other than white space has no
    word, so its result is empty whatever the graph holds. *)
Theorem query_blank (query : str) (g : Graph) :
  Forall (fun c => isspace c = true) (lower query) ->
  query_knowledge_graph lower query g = [].
Proof.
  intros H. rewrite query_as_candidates. unfold candidates.
  assert (E : split (lower query) = []).
  { unfold split. induction H as [|c s Hc Hs IH]; [reflexivity |].
    cbn [runs]. by rewrite Hc. }
  rewrite E. induction (relationships g) as [|r l IH]; [reflexivity |].
  cbn [flat_map]. exact IH.
Qed.

End RankingFacts.

Lemma query_blank_witness :
  query_knowledge_graph lower_ascii (u "  ")
    (graph_of_sentence (u "अग्नि यज्ञस्य") (u "RV 1")) = [].
Proof.
  apply (query_blank lower_ascii (u "  ")).
  repeat constructor.
Defined.


(** ** More on the corpus loader *)

Module CorpusMore.

Import Corpus CorpusSamples CorpusSpec.

Lemma convert_loadable (item : json) :
  loadable item = true <-> exists o, convert item = Return o.
Proof.
  destruct item as [| | | | |l|d];
    try (split; [discriminate | intros [o H]; discriminate H]).
  unfold loadable, convert. destruct (accepted d); cbn [negb orb].
  - unfold required_keys. cbn [forallb]. unfold subscript.
    destruct (dict_get d (u "book")); cbn [mbind outcome_bind andb];
      [|split; [discriminate | intros [o H]; discriminate H]].
    destruct (dict_get d (u "hymn")); cbn [mbind outcome_bind andb];
      [|split; [discriminate | intros [o H]; discriminate H]].
    destruct (dict_get d (u "reference")); cbn [mbind outcome_bind andb];
      [|split; [discriminate | intros [o H]; discriminate H]].
    destruct (dict_get d (u "sanskrit")); cbn [mbind outcome_bind andb];
      [|split; [discriminate | intros [o H]; discriminate H]].
    destruct (dict_get d (u "romanized")); cbn [mbind outcome_bind andb];
      [|split; [discriminate | intros [o H]; discriminate H]].
    split; [intros _; by eexists | reflexivity].
  - split; [intros _; by eexists | reflexivity].
Qed.

Lemma load_loop_loadable (items : list json) (hymns : list RigVedaHymn) :
  forallb loadable items = true ->
  load_loop items hymns = (hymns ++ converted items, Return tt).
Proof.
  revert hymns. induction items as [|item items IH]; intros hymns H.
  - cbn [load_loop converted omap list_omap]. by rewrite app_nil_r.
  - cbn [forallb] in H. apply andb_true_iff in H as [Hi Hs].
    apply convert_loadable in Hi as [o Ho].
    cbn [load_loop]. unfold converted. cbn [omap list_omap]. rewrite Ho.
    destruct o as [h|].
    + rewrite IH by done. unfold converted. by rewrite <- app_assoc.
    + by apply IH.
Qed.

Lemma load_loop_not_loadable (items : list json) (hymns : list RigVedaHymn) :
  forallb loadable items = false ->
  exists e, (load_loop items hymns).2 = Raise e.
Proof.
  revert hymns. induction items as [|item items IH]; intros hymns H.
  - discriminate H.
  - cbn [forallb] in H. cbn [load_loop].
    destruct (convert item) as [o|e] eqn:C; [|by exists e].
    assert (L : loadable item = true) by (apply convert_loadable; by exists o).
    rewrite L in H. cbn [andb] in H. destruct o; by apply IH.
Qed.

(** The hymns of a list of records keep a text that is true: a record
    without text is never converted. *)
Lemma convert_text (item : json) (h : RigVedaHymn) :
  convert item = Return (Some h) ->
  exists d, item = JDict d
    /\ accepted d = true
    /\ dict_get d (u "book") = Some (book h)
    /\ dict_get d (u "hymn") = Some (hymn h)
    /\ dict_get d (u "reference") = Some (reference h)
    /\ dict_get d (u "sanskrit") = Some (sanskrit h)
    /\ dict_get d (u "romanized") = Some (romanized h)
    /\ verses h = default (JInt 0) (dict_get d (u "verses"))
    /\ url h = default (JStr []) (dict_get d (u "url"))
    /\ json_truthy (sanskrit h) = true.
Proof.
  destruct item as [| | | | |l|d]; try discriminate.
  unfold convert. destruct (accepted d) eqn:A; [|discriminate].
  unfold subscript.
  destruct (dict_get d (u "book")) as [b|] eqn:Eb; [|discriminate].
  destruct (dict_get d (u "hymn")) as [y|] eqn:Eh; [|discriminate].
  destruct (dict_get d (u "reference")) as [r|] eqn:Er; [|discriminate].
  destruct (dict_get d (u "sanskrit")) as [s|] eqn:Es; [|discriminate].
  destruct (dict_get d (u "romanized")) as [z|] eqn:Ez; [|discriminate].
  cbn [mbind outcome_bind mret outcome_ret]. intros [= <-].
  exists d. cbn [book hymn reference sanskrit romanized verses url].
  split_and!; try reflexivity; try assumption.
  unfold accepted in A. rewrite Es in A.
  by apply andb_true_iff in A as [_ A].
Qed.

Lemma load_corpus_loadable (items : list json) (hymns : list RigVedaHymn) :
  forallb loadable items = true ->
  load_corpus (Return (JList items)) hymns
  = (hymns ++ converted items, Return true).
Proof.
  intros H. unfold load_corpus, load_corpus_try, items_of.
  rewrite load_loop_loadable by done. reflexivity.
Qed.

(** X12: on a corpus file that holds an array, [load_corpus] returns
    [True] exactly when every record is a dictionary and every record with
    status ['complete'] and a true text has the keys [book], [hymn],
    [reference], [sanskrit] and [romanized]; the hymns of the accepted
    records are then appended to [self.hymns] in the order of the file. *)
Theorem load_corpus_true_iff (items : list json)
    (hymns : list RigVedaHymn) :
  ((load_corpus (Return (JList items)) hymns).2 = Return true
   <-> forallb loadable items = true)
  /\ (forallb loadable items = true ->
      load_corpus (Return (JList items)) hymns
      = (hymns ++ converted items, Return true)).
Proof.
  pose proof (load_corpus_loadable items hymns) as T.
  split; [|exact T]. split.
  - intros H. destruct (forallb loadable items) eqn:L; [reflexivity |].
    destruct (load_loop_not_loadable items hymns L) as [e He].
    unfold load_corpus, load_corpus_try, items_of in H.
    cbn [fst snd] in H. rewrite He in H. discriminate H.
  - intros H. by rewrite T.
Qed.

(** X13: [load_corpus] only appends to [self.hymns]: whatever the file and
    however the call ends, the hymns held before are kept in front, there
    is at most one new hymn for each accepted record, and every new hymn has
    a text that is true; when the file cannot be opened or read nothing is
    appended and the result is [False]. *)
Theorem load_corpus_appends (file : outcome json)
    (hymns : list RigVedaHymn) :
  (exists new,
     (load_corpus file hymns).1 = hymns ++ new
     /\ Forall (fun h => json_truthy (sanskrit h) = true) new
     /\ (forall items, file = Return (JList items) ->
         length new <= length items))
  /\ (forall e, file = Raise e ->
      load_corpus file hymns = (hymns, Return false)).
Proof.
  split; [|by intros e ->].
  assert (L : forall items hs, exists new,
            (load_loop items hs).1 = hs ++ new
            /\ Forall (fun h => json_truthy (sanskrit h) = true) new
            /\ length new <= length items).
  { induction items as [|item items IH]; intros hs.
    - exists []. cbn [load_loop fst]. rewrite app_nil_r.
      split_and!; [done | constructor | done].
    - cbn [load_loop]. destruct (convert item) as [[h|]|e] eqn:C.
      + destruct (IH (hs ++ [h])) as (new & E & F & Len).
        exists (h :: new). rewrite E, <- app_assoc. split_and!; [done | |].
        * constructor; [|done].
          by apply convert_text in C as (d & _ & _ & _ & _ & _ & _ & _ & _ & _ & T).
        * cbn [length]. lia.
      + destruct (IH hs) as (new & E & F & Len).
        exists new. split_and!; [done | done | cbn [length]; lia].
      + exists []. cbn [fst]. rewrite app_nil_r.
        split_and!; [done | constructor | cbn [length]; lia]. }
  unfold load_corpus, load_corpus_try. cbn [fst].
  destruct file as [corpus_data|e].
  - destruct corpus_data as [| | | |s|l|d]; cbn [items_of fst];
      try (exists []; rewrite app_nil_r;
           split_and!; [done | constructor | discriminate]).
    + destruct (L (List.map (fun c => JStr [c]) s) hymns) as (new & E & F & _).
      exists new. split_and!; [done | done | discriminate].
    + destruct (L l hymns) as (new & E & F & Len).
      exists new. split_and!; [done | done |]. by intros items [= <-].
    + destruct (L (List.map (fun kv => JStr kv.1) d) hymns)
        as (new & E & F & _).
      exists new. split_and!; [done | done | discriminate].
  - exists []. cbn [fst]. rewrite app_nil_r.
    split_and!; [done | constructor | discriminate].
Qed.

(** X14: [load_corpus] does not reset [self.hymns]: a second call on the
    same well-formed file appends the same hymns a second time. *)
Theorem load_corpus_twice (items : list json) (hymns : list RigVedaHymn) :
  forallb loadable items = true ->
  load_corpus (Return (JList items))
              (load_corpus (Return (JList items)) hymns).1
  = (hymns ++ converted items ++ converted items, Return true).
Proof.
  intros H. rewrite (load_corpus_loadable items hymns H). cbn [fst].
  rewrite (load_corpus_loadable items _ H). by rewrite <- app_assoc.
Qed.

Lemma load_corpus_twice_witness :
  length (load_corpus (Return (JList [complete_record]))
            (load_corpus (Return (JList [complete_record])) []).1).1
  = 2%nat.
Proof.
  rewrite (load_corpus_twice [complete_record] []).
  - vm_compute. reflexivity.
  - vm_compute. reflexivity.
Defined.

(** X15: a file whose top-level value is a JSON object or a string, not
    an array, is iterated key by key or character by character; the first
    element raises [AttributeError], so the result is [False] unless the
    object or string is empty, and no hymn is appended. A number, a boolean
    or [null] has no length: the result is [False]. *)
Theorem load_corpus_not_an_array (corpus_data : json)
    (hymns : list RigVedaHymn) :
  (forall l, corpus_data <> JList l) ->
  load_corpus (Return corpus_data) hymns
  = (hymns, Return (match corpus_data with
                    | JDict [] | JStr [] => true
                    | _ => false
                    end)).
Proof.
  intros H. unfold load_corpus, load_corpus_try.
  destruct corpus_data as [| | | |s|l|d]; try reflexivity.
  - by destruct s.
  - by destruct (H l).
  - by destruct d.
Qed.

Lemma load_corpus_not_an_array_witness :
  load_corpus (Return (JDict [(u "hymns", JList [complete_record])])) []
  = ([], Return false).
Proof.
  apply (load_corpus_not_an_array
           (JDict [(u "hymns", JList [complete_record])]) []).
  intros l. discriminate.
Defined.

End CorpusMore.


(** ** The semantic field classifier *)

Lemma get_count_increment (d0 d : str) (scores : list (str * nat)) :
  get_count (increment d0 scores) d
  = if bool_decide (d0 = d) then S (get_count scores d)
    else get_count scores d.
Proof.
  induction scores as [|[d' n] rest IH]; cbn [increment get_count].
  - reflexivity.
  - destruct (decide (d' = d0)) as [->|N].
    + rewrite bool_decide_eq_true_2 by reflexivity. cbn [get_count].
      by destruct (bool_decide (d0 = d)).
    + rewrite (bool_decide_eq_false_2 (d' = d0)) by done. cbn [get_count].
      rewrite IH. destruct (decide (d' = d)) as [->|N'].
      * rewrite bool_decide_eq_true_2 by reflexivity.
        by rewrite (bool_decide_eq_false_2 (d0 = d)) by congruence.
      * by rewrite (bool_decide_eq_false_2 (d' = d)) by done.
Qed.

Lemma increment_keys (d0 : str) (scores : list (str * nat)) :
  (increment d0 scores).*1
  = if bool_decide (d0 ∈ scores.*1) then scores.*1 else scores.*1 ++ [d0].
Proof.
  induction scores as [|[d' n] rest IH]; cbn [increment fmap list_fmap fst].
  - rewrite bool_decide_eq_false_2 by (by intros ?%elem_of_nil). reflexivity.
  - destruct (decide (d' = d0)) as [->|N].
    + rewrite bool_decide_eq_true_2 by reflexivity.
      rewrite bool_decide_eq_true_2 by (by left). reflexivity.
    + rewrite (bool_decide_eq_false_2 (d' = d0)) by done.
      cbn [fmap list_fmap fst]. fold (rest.*1). fold ((increment d0 rest).*1).
      rewrite IH. destruct (decide (d0 ∈ rest.*1)) as [I|I].
      * rewrite !bool_decide_eq_true_2; [done | by right | done].
      * rewrite !bool_decide_eq_false_2; [done | | done].
        intros [E | E]%elem_of_cons; [by destruct N | done].
Qed.

Lemma increment_positive (d0 : str) (scores : list (str * nat)) :
  Forall (fun p => 0 < p.2) scores ->
  Forall (fun p => 0 < p.2) (increment d0 scores).
Proof.
  induction scores as [|[d' n] rest IH]; intros H; cbn [increment].
  - repeat constructor.
  - apply Forall_cons in H as [Hn Hr].
    destruct (bool_decide (d' = d0)); constructor; cbn [snd] in *;
      [lia | done | done | by apply IH].
Qed.

Lemma get_count_elem (scores : list (str * nat)) (d : str) (n : nat) :
  NoDup scores.*1 -> (d, n) ∈ scores -> get_count scores d = n.
Proof.
  induction scores as [|[d' m] rest IH]; intros Hnd Hin.
  - by apply elem_of_nil in Hin.
  - cbn [fmap list_fmap fst] in Hnd. apply NoDup_cons in Hnd as [Hd Hnd].
    cbn [get_count]. apply elem_of_cons in Hin as [[= -> ->] | Hin].
    + by rewrite bool_decide_eq_true_2.
    + rewrite bool_decide_eq_false_2; [by apply IH |].
      intros ->. apply Hd. apply list_elem_of_fmap. by exists (d, n).
Qed.

Lemma get_count_positive (scores : list (str * nat)) (d : str) :
  0 < get_count scores d -> (d, get_count scores d) ∈ scores.
Proof.
  induction scores as [|[d' m] rest IH]; cbn [get_count]; [lia |].
  destruct (decide (d' = d)) as [->|N].
  - rewrite bool_decide_eq_true_2 by reflexivity. intros _. by left.
  - rewrite bool_decide_eq_false_2 by done. intros H. right. by apply IH.
Qed.

Lemma domain_count_snoc (d : str) (ws : list str) (w : str) :
  domain_count d (ws ++ [w])
  = domain_count d ws + (if decide (word_domain w = Some d) then 1 else 0).
Proof.
  unfold domain_count. rewrite filter_app, length_app, filter_cons, filter_nil.
  by destruct (decide (word_domain w = Some d)).
Qed.

(** The table of counts after the loop over a list of tokens. *)
Lemma field_scores_spec (ws : list str) :
  let scores := foldl count_field [] ws in
  NoDup scores.*1
  /\ Forall (fun p => 0 < p.2) scores
  /\ forall d, get_count scores d = domain_count d ws.
Proof.
  induction ws as [|w ws IH] using rev_ind; cbv zeta.
  - cbn [foldl]. split_and!; [constructor | constructor | done].
  - rewrite foldl_app. cbn [foldl].
    set (scores := foldl count_field [] ws) in *.
    destruct IH as (Hnd & Hpos & Hget).
    unfold count_field.
    destruct (vedic_vocabulary !! w) as [entry|] eqn:V.
    + set (d0 := default (u "unknown") (v_domain entry)).
      assert (Wd : word_domain w = Some d0).
      { unfold word_domain. by rewrite V. }
      split_and!.
      * rewrite increment_keys. destruct (bool_decide (d0 ∈ scores.*1)) eqn:B;
          [done |].
        apply bool_decide_eq_false in B. apply NoDup_app. split_and!;
          [done | | apply NoDup_singleton].
        intros x Hx ->%list_elem_of_singleton. done.
      * by apply increment_positive.
      * intros d. rewrite get_count_increment, domain_count_snoc, Hget, Wd.
        destruct (decide (d0 = d)) as [->|N].
        -- rewrite bool_decide_eq_true_2 by reflexivity.
           rewrite decide_True by reflexivity. lia.
        -- rewrite bool_decide_eq_false_2 by done.
           rewrite decide_False by congruence. lia.
    + split_and!; [done | done |].
      intros d. rewrite domain_count_snoc, Hget.
      assert (Wd : word_domain w = None).
      { unfold word_domain. by rewrite V. }
      rewrite Wd. rewrite decide_False by done. lia.
Qed.

Lemma max_by_count_spec (rest : list (str * nat)) (best : str * nat) :
  exists n, (max_by_count best rest, n) ∈ best :: rest
            /\ Forall (fun p => p.2 <= n) (best :: rest).
Proof.
  revert best. induction rest as [|item rest IH]; intros best.
  - exists best.2. cbn [max_by_count]. split.
    + destruct best. by left.
    + by repeat constructor.
  - cbn [max_by_count]. destruct (best.2 <? item.2)%nat eqn:L.
    + apply Nat.ltb_lt in L.
      destruct (IH item) as (n & Hin & Hall). exists n. split.
      * by right.
      * apply Forall_cons in Hall as [Hi Hr]. constructor; [lia |].
        by constructor.
    + apply Nat.ltb_ge in L.
      destruct (IH best) as (n & Hin & Hall). exists n. split.
      * apply elem_of_cons in Hin as [E | Hin];
          [rewrite E; by left | right; by right].
      * apply Forall_cons in Hall as [Hb Hr]. constructor; [done |].
        constructor; [lia | done].
Qed.

Lemma vocabulary_domain_not_general (w d : str) :
  word_domain w = Some d -> d <> u "general".
Proof.
  unfold word_domain. destruct (vedic_vocabulary !! w) as [entry|] eqn:V;
    [|discriminate].
  cbn [fmap option_fmap option_map]. intros [= <-].
  unfold vedic_vocabulary in V.
  apply foldl_insert_lookup in V as [V | V];
    [|rewrite lookup_empty in V; discriminate V].
  assert (C : forallb (fun kv : str * VocabEntry =>
                negb (bool_decide (default (u "unknown") (v_domain kv.2)
                                   = u "general")))
              (deities ++ ritual_terms ++ cosmic_terms) = true)
    by (vm_compute; reflexivity).
  rewrite forallb_forall in C. apply list_elem_of_In in V.
  specialize (C _ V). cbn [snd] in C. apply negb_true_iff in C.
  by apply bool_decide_eq_false in C.
Qed.

(** X16: [classify_semantic_field] answers ['general'] exactly when no
    token of the sentence is, as a whole string, a key of the vocabulary;
    otherwise it answers a domain of the vocabulary that at least one token
    has and that no other domain beats in number of tokens. *)
Theorem classify_semantic_field_spec (sentence : str) :
  let words := words_of sentence in
  let r := classify_semantic_field sentence in
  (r = u "general" <-> Forall (fun w => vedic_vocabulary !! w = None) words)
  /\ (r <> u "general" ->
      0 < domain_count r words
      /\ forall d, domain_count d words <= domain_count r words).
Proof.
  cbv zeta. unfold classify_semantic_field.
  set (words := words_of sentence).
  destruct (field_scores_spec words) as (Hnd & Hpos & Hget).
  cbv zeta in Hnd, Hpos, Hget.
  destruct (foldl count_field [] words) as [|first rest] eqn:E.
  - split; [|done]. split; [intros _ | done].
    apply Forall_forall. intros w Hw.
    destruct (vedic_vocabulary !! w) as [entry|] eqn:V; [|done].
    exfalso. set (d := default (u "unknown") (v_domain entry)).
    assert (Hc : 0 < domain_count d words).
    { unfold domain_count.
      assert (Hf : w ∈ filter (fun w => word_domain w = Some d) words).
      { apply list_elem_of_filter. split; [|done].
        unfold word_domain. by rewrite V. }
      destruct (filter _ words); [by apply elem_of_nil in Hf |].
      cbn [length]. lia. }
    rewrite <- Hget in Hc. cbn [get_count] in Hc. lia.
  - destruct (max_by_count_spec rest first) as (n & Hin & Hall).
    set (r := max_by_count first rest) in *.
    assert (Hr : get_count (first :: rest) r = n)
      by (by apply get_count_elem).
    assert (Hn : 0 < n).
    { rewrite Forall_forall in Hpos. by apply (Hpos (r, n)). }
    assert (Hcount : 0 < domain_count r words) by (rewrite <- Hget; lia).
    assert (Hne : r <> u "general").
    { unfold domain_count in Hcount.
      destruct (filter (fun w => word_domain w = Some r) words) as [|w l] eqn:F;
        [cbn [length] in Hcount; lia |].
      assert (Hw : w ∈ filter (fun w => word_domain w = Some r) words)
        by (rewrite F; by left).
      apply list_elem_of_filter in Hw as [Hw _].
      by apply (vocabulary_domain_not_general w). }
    split.
    + split; [done |]. intros Hall0. exfalso.
      unfold domain_count in Hcount.
      destruct (filter (fun w => word_domain w = Some r) words) as [|w l] eqn:F;
        [cbn [length] in Hcount; lia |].
      assert (Hw : w ∈ filter (fun w => word_domain w = Some r) words)
        by (rewrite F; by left).
      apply list_elem_of_filter in Hw as [Hw Hin'].
      rewrite Forall_forall in Hall0. specialize (Hall0 w Hin').
      unfold word_domain in Hw. rewrite Hall0 in Hw. discriminate Hw.
    + intros _. split; [done |]. intros d.
      rewrite <- !Hget, Hr.
      destruct (Nat.eq_dec (get_count (first :: rest) d) 0) as [Z|Z];
        [lia |].
      assert (Hd : (d, get_count (first :: rest) d) ∈ first :: rest)
        by (apply get_count_positive; lia).
      rewrite Forall_forall in Hall. by apply (Hall _ Hd).
Qed.


Lemma max_by_count_split (rest l1 mid : list (str * nat)) (b : str * nat) :
  Forall (fun p => p.2 < b.2) l1 ->
  Forall (fun p => p.2 <= b.2) mid ->
  exists l1' n l2',
    l1 ++ b :: mid ++ rest = l1' ++ (max_by_count b rest, n) :: l2'
    /\ Forall (fun p => p.2 < n) l1'
    /\ Forall (fun p => p.2 <= n) l2'.
Proof.
  revert l1 mid b. induction rest as [|item rest IH]; intros l1 mid b H1 H2.
  - exists l1, b.2, mid. cbn [max_by_count]. rewrite app_nil_r.
    split_and!; [by destruct b | done | done].
  - cbn [max_by_count]. destruct (b.2 <? item.2)%nat eqn:L.
    + apply Nat.ltb_lt in L.
      destruct (IH (l1 ++ b :: mid) [] item) as (l1' & n & l2' & E & F1 & F2).
      * apply Forall_app. split.
        -- eapply Forall_impl; [exact H1 |]. intros p Hp. cbn beta in *. lia.
        -- constructor; [done |].
           eapply Forall_impl; [exact H2 |]. intros p Hp. cbn beta in *. lia.
      * constructor.
      * exists l1', n, l2'. split; [|done]. rewrite <- E.
        cbn [app]. by rewrite <- !app_assoc.
    + apply Nat.ltb_ge in L.
      destruct (IH l1 (mid ++ [item]) b) as (l1' & n & l2' & E & F1 & F2).
      * done.
      * apply Forall_app. split; [done | by repeat constructor].
      * exists l1', n, l2'. split; [|done]. rewrite <- E.
        by rewrite <- !app_assoc.
Qed.

Lemma precedes_snoc (ws : list str) (w : str) (d d' : str) :
  precedes ws d d' -> precedes (ws ++ [w]) d d'.
Proof.
  intros (pre & x & post & -> & Hx & Hpre).
  exists pre, x, (post ++ [w]). split; [|done].
  by rewrite <- app_assoc.
Qed.

Lemma get_count_absent (scores : list (str * nat)) (d : str) :
  d ∉ scores.*1 -> get_count scores d = 0.
Proof.
  induction scores as [|[d' n] rest IH]; [done |].
  cbn [fmap list_fmap fst get_count]. intros H.
  rewrite bool_decide_eq_false_2.
  - apply IH. intros Hin. apply H. by right.
  - intros ->. apply H. by left.
Qed.

Lemma get_count_present (scores : list (str * nat)) (d : str) :
  Forall (fun p => 0 < p.2) scores -> d ∈ scores.*1 ->
  0 < get_count scores d.
Proof.
  induction scores as [|[d' n] rest IH]; intros Hp Hin.
  - by apply elem_of_nil in Hin.
  - apply Forall_cons in Hp as [Hn Hp]. cbn [get_count].
    destruct (decide (d' = d)) as [->|N].
    + by rewrite bool_decide_eq_true_2.
    + rewrite bool_decide_eq_false_2 by done. apply IH; [done |].
      cbn [fmap list_fmap fst] in Hin.
      apply elem_of_cons in Hin as [E | Hin]; [by destruct N | done].
Qed.

Lemma domain_count_token (d : str) (ws : list str) :
  0 < domain_count d ws ->
  exists pre w post, ws = pre ++ w :: post /\ word_domain w = Some d.
Proof.
  unfold domain_count. intros H.
  destruct (filter (fun w => word_domain w = Some d) ws) as [|w l] eqn:F;
    [cbn [length] in H; lia |].
  assert (Hw : w ∈ filter (fun w => word_domain w = Some d) ws)
    by (rewrite F; by left).
  apply list_elem_of_filter in Hw as [Hw Hin].
  apply list_elem_of_split in Hin as (pre & post & ->).
  by exists pre, w, post.
Qed.

Lemma domain_count_zero (d : str) (ws : list str) :
  domain_count d ws = 0 -> Forall (fun x => word_domain x <> Some d) ws.
Proof.
  unfold domain_count. intros H. apply Forall_forall. intros x Hx Hd.
  assert (Hf : x ∈ filter (fun w => word_domain w = Some d) ws)
    by (by apply list_elem_of_filter).
  destruct (filter _ ws); [by apply elem_of_nil in Hf |].
  cbn [length] in H. lia.
Qed.

(** The keys of the table of counts are in the order in which their first
    tokens come. *)
Lemma field_scores_order (ws : list str) (k1 k2 : list str) (d d' : str) :
  (foldl count_field [] ws).*1 = k1 ++ d :: k2 ->
  d' ∈ k2 -> precedes ws d d'.
Proof.
  revert k1 k2 d d'.
  induction ws as [|w ws IH] using rev_ind; intros k1 k2 d d' E Hin.
  - cbn [foldl fmap list_fmap] in E. by destruct k1.
  - rewrite foldl_app in E. cbn [foldl] in E.
    destruct (field_scores_spec ws) as (Hnd & Hpos & Hget).
    cbv zeta in Hnd, Hpos, Hget.
    set (scores := foldl count_field [] ws) in *.
    unfold count_field in E.
    destruct (vedic_vocabulary !! w) as [entry|] eqn:V;
      [|by apply precedes_snoc, (IH k1 k2)].
    set (d0 := default (u "unknown") (v_domain entry)) in *.
    rewrite increment_keys in E.
    destruct (bool_decide (d0 ∈ scores.*1)) eqn:B;
      [by apply precedes_snoc, (IH k1 k2) |].
    apply bool_decide_eq_false in B.
    destruct k2 as [|x k2 _] using rev_ind; [by apply elem_of_nil in Hin |].
    assert (E' : scores.*1 = k1 ++ d :: k2 /\ d0 = x).
    { change (k1 ++ d :: k2 ++ [x]) with (k1 ++ (d :: k2) ++ [x]) in E.
      rewrite app_assoc in E. by apply app_inj_tail in E. }
    destruct E' as [E' <-].
    apply elem_of_app in Hin as [Hin | Hin].
    + by apply precedes_snoc, (IH k1 k2).
    + apply list_elem_of_singleton in Hin as ->.
      assert (Hd : 0 < domain_count d ws).
      { rewrite <- Hget. apply get_count_present; [done |].
        rewrite E'. apply elem_of_app. right. by left. }
      destruct (domain_count_token d ws Hd) as (pre & w1 & post & Ews & Hw1).
      assert (Hz : Forall (fun x => word_domain x <> Some d0) ws).
      { apply domain_count_zero. rewrite <- Hget.
        by apply get_count_absent. }
      exists pre, w1, (post ++ [w]). split_and!.
      * rewrite Ews. by rewrite <- app_assoc.
      * done.
      * rewrite Ews in Hz. by apply Forall_app in Hz as [Hz _].
Qed.

(** X21: when several domains have the greatest number of tokens,
    [classify_semantic_field] answers the one that is met first in the
    sentence: a token of the answer comes before every token of any other
    domain with the same number of tokens. *)
Theorem classify_semantic_field_tie (sentence : str) (d : str) :
  let words := words_of sentence in
  let r := classify_semantic_field sentence in
  r <> u "general" ->
  d <> r ->
  domain_count d words = domain_count r words ->
  precedes words r d.
Proof.
  cbv zeta. unfold classify_semantic_field.
  set (words := words_of sentence).
  destruct (field_scores_spec words) as (Hnd & Hpos & Hget).
  cbv zeta in Hnd, Hpos, Hget.
  pose proof (field_scores_order words) as Hord.
  destruct (foldl count_field [] words) as [|first rest] eqn:E; [done |].
  intros _ Hne Hc.
  destruct (max_by_count_split rest [] [] first)
    as (l1 & n & l2 & Es & F1 & F2); [constructor | constructor |].
  cbn [app] in Es. set (r := max_by_count first rest) in *.
  rewrite Es in Hnd, Hpos, Hget, Hord.
  assert (Hr : get_count (l1 ++ (r, n) :: l2) r = n).
  { apply get_count_elem; [done |]. apply elem_of_app. right. by left. }
  assert (Hn : 0 < n).
  { rewrite Forall_forall in Hpos. apply (Hpos (r, n)).
    apply elem_of_app. right. by left. }
  assert (Hd : (d, n) ∈ l1 ++ (r, n) :: l2).
  { rewrite <- Hr at 1. rewrite Hget, <- Hc, <- Hget.
    apply get_count_positive. rewrite Hget, Hc, <- Hget, Hr. exact Hn. }
  apply elem_of_app in Hd as [Hd | Hd].
  - rewrite Forall_forall in F1. specialize (F1 _ Hd). cbn [snd] in F1. lia.
  - apply elem_of_cons in Hd as [[= ->] | Hd]; [done |].
    apply (Hord (l1.*1) (l2.*1)).
    + by rewrite fmap_app.
    + apply list_elem_of_fmap. by exists (d, n).
Qed.

Lemma classify_semantic_field_tie_witness :
  precedes (words_of (u "इन्द्र अग्नि")) (u "storm") (u "fire").
Proof.
  refine (classify_semantic_field_tie (u "इन्द्र अग्नि") (u "fire") _ _ _).
  - vm_compute. discriminate.
  - vm_compute. discriminate.
  - vm_compute. reflexivity.
Defined.


(** ** Romanization *)

Lemma lstrip_suffix (s : str) :
  exists k, s = k ++ lstrip s /\ Forall (fun c => isspace c = true) k.
Proof.
  induction s as [|c s (k & E & F)]; [by exists [] |].
  cbn [lstrip]. destruct (isspace c) eqn:C.
  - exists (c :: k). split; [cbn [app]; by rewrite <- E | by constructor].
  - by exists [].
Qed.

Lemma lstrip_length (s : str) : length (lstrip s) <= length s.
Proof.
  destruct (lstrip_suffix s) as (k & E & _).
  rewrite E at 2. rewrite length_app. lia.
Qed.

Lemma lstrip_fixed (s : str) :
  lstrip s = s <-> s = [] \/ exists c s', s = c :: s' /\ isspace c = false.
Proof.
  destruct s as [|c s]; [by split; [left |] |].
  cbn [lstrip]. destruct (isspace c) eqn:C.
  - split.
    + intros E. pose proof (lstrip_length s) as L. rewrite E in L.
      cbn [length] in L. lia.
    + intros [H | (c' & s' & [= -> ->] & H)]; [discriminate H | congruence].
  - split; [|done]. intros _. right. by exists c, s.
Qed.

Lemma lstrip_idem (s : str) : lstrip (lstrip s) = lstrip s.
Proof.
  induction s as [|c s IH]; [done |]. cbn [lstrip].
  destruct (isspace c) eqn:C; [exact IH |]. cbn [lstrip]. by rewrite C.
Qed.

Lemma rstrip_idem (s : str) : rstrip (rstrip s) = rstrip s.
Proof. unfold rstrip. by rewrite rev_involutive, lstrip_idem. Qed.

Lemma rstrip_lstrip (y : str) : rstrip y = y -> rstrip (lstrip y) = lstrip y.
Proof.
  intros H. destruct (lstrip_suffix y) as (k & E & _).
  set (z := lstrip y) in *.
  assert (Hr : lstrip (rev y) = rev y).
  { unfold rstrip in H. rewrite <- H at 2. by rewrite rev_involutive. }
  unfold rstrip. destruct (rev z) as [|c t] eqn:Z.
  - cbn [lstrip rev].
    assert (z = []) as -> by (by rewrite <- (rev_involutive z), Z). done.
  - rewrite E, rev_app_distr, Z in Hr. cbn [app] in Hr.
    apply lstrip_fixed in Hr as [Hr | (c' & s' & [= <- <-] & Hc)];
      [discriminate Hr |].
    rewrite (proj2 (lstrip_fixed (c :: t))) by (right; by exists c, t).
    by rewrite <- Z, rev_involutive.
Qed.

(** A string without white space at either end. *)
Lemma strip_clean (s : str) :
  lstrip (strip s) = strip s /\ rstrip (strip s) = strip s.
Proof.
  unfold strip. split; [apply lstrip_idem |].
  apply rstrip_lstrip, rstrip_idem.
Qed.

Lemma strip_fixed (s : str) : lstrip s = s -> rstrip s = s -> strip s = s.
Proof. intros L R. unfold strip. by rewrite R. Qed.

Lemma lstrip_Forall (P : N -> Prop) (s : str) :
  Forall P s -> Forall P (lstrip s).
Proof.
  intros H. destruct (lstrip_suffix s) as (k & E & _).
  rewrite E in H. by apply Forall_app in H as [_ H].
Qed.

Lemma strip_Forall (P : N -> Prop) (s : str) :
  Forall P s -> Forall P (strip s).
Proof.
  intros H. unfold strip, rstrip.
  by apply lstrip_Forall, Forall_rev, lstrip_Forall, Forall_rev.
Qed.

Lemma char_map_get_cases (m : list (str * str)) (char : str) :
  (char_map_get m char = char
   /\ existsb (fun kv => bool_decide (kv.1 = char)) m = false)
  \/ (exists k, (k, char_map_get m char) ∈ m).
Proof.
  induction m as [|[k v] m IH]; cbn [char_map_get existsb fst].
  - by left.
  - destruct (bool_decide (k = char)) eqn:B; cbn [orb].
    + right. exists k. by left.
    + destruct IH as [IH | (k' & IH)]; [by left |].
      right. exists k'. by right.
Qed.

Lemma romanize_char_unmapped (c : N) :
  Forall (fun x => mapped x = false) (char_map_get char_map [c]).
Proof.
  destruct (char_map_get_cases char_map [c]) as [[E H] | (k & H)].
  - rewrite E. by repeat constructor.
  - assert (C : forallb (fun kv : str * str =>
                  forallb (fun x => negb (mapped x)) kv.2) char_map = true)
      by (vm_compute; reflexivity).
    rewrite forallb_forall in C. apply list_elem_of_In in H.
    specialize (C _ H). cbn [snd] in C. rewrite forallb_forall in C.
    apply Forall_forall. intros x Hx. apply negb_true_iff, C.
    by apply list_elem_of_In.
Qed.

Lemma romanize_chars_unmapped (text : str) :
  Forall (fun x => mapped x = false) (romanize_chars text).
Proof.
  unfold romanize_chars. induction text as [|c text IH]; [constructor |].
  cbn [flat_map]. apply Forall_app. split; [apply romanize_char_unmapped | done].
Qed.

Lemma char_map_get_absent (m : list (str * str)) (char : str) :
  existsb (fun kv => bool_decide (kv.1 = char)) m = false ->
  char_map_get m char = char.
Proof.
  induction m as [|[k v] m IH]; cbn [char_map_get existsb fst]; [done |].
  intros [Hk Hm]%orb_false_iff. rewrite Hk. by apply IH.
Qed.

Lemma romanize_chars_id (s : str) :
  Forall (fun x => mapped x = false) s -> romanize_chars s = s.
Proof.
  unfold romanize_chars. induction 1 as [|c s Hc Hs IH]; [done |].
  cbn [flat_map]. rewrite IH. unfold mapped in Hc.
  by rewrite (char_map_get_absent char_map [c] Hc).
Qed.

(** X17: the romanized text has no white space at either end and no code
    point that is a key of [char_map]; romanizing it again changes
    nothing, and a text without any key of [char_map] (a text that is
    already in Latin script, say) is only stripped. *)
Theorem romanize_devanagari_idempotent (text : str) :
  let r := romanize_devanagari text in
  Forall (fun c => mapped c = false) r
  /\ lstrip r = r /\ rstrip r = r
  /\ romanize_devanagari r = r
  /\ (Forall (fun c => mapped c = false) text ->
      romanize_devanagari text = strip text).
Proof.
  cbv zeta.
  assert (U : Forall (fun c => mapped c = false) (romanize_devanagari text)).
  { unfold romanize_devanagari. apply strip_Forall, romanize_chars_unmapped. }
  destruct (strip_clean (romanize_chars text)) as [L R].
  fold (romanize_devanagari text) in L, R.
  split_and!; [exact U | exact L | exact R | |].
  - unfold romanize_devanagari at 1. rewrite romanize_chars_id by exact U.
    by apply strip_fixed.
  - intros H. unfold romanize_devanagari. by rewrite romanize_chars_id.
Qed.

(** A verse with a danda: the text and its second romanization. *)
Lemma romanize_example :
  romanize_devanagari (u " अग्निम् । ") = u "aganaिma  |"
  /\ romanize_devanagari (u "aganaिma  |") = u "aganaिma  |".
Proof. vm_compute. by split. Qed.


(** ** Hymns by theme *)

Section ByThemeFacts.

Context {Hymn : Type} (spiritual_themes : Hymn -> option (list str)).

Lemma by_theme_loop_take (theme : str) (limit : Z) (hymns matching : list Hymn) :
  (Z.of_nat (length matching) < limit)%Z ->
  by_theme_loop spiritual_themes theme limit hymns matching
  = matching
    ++ take (Z.to_nat (limit - Z.of_nat (length matching)))
            (List.filter (has_theme spiritual_themes theme) hymns).
Proof.
  revert matching. induction hymns as [|h rest IH]; intros matching L.
  - cbn [by_theme_loop List.filter]. by rewrite take_nil, app_nil_r.
  - cbn [by_theme_loop List.filter].
    destruct (has_theme spiritual_themes theme h).
    + rewrite length_app. cbn [length].
      replace (Z.to_nat (limit - Z.of_nat (length matching)))
        with (S (Z.to_nat (limit - Z.of_nat (length matching + 1)))) by lia.
      cbn [take]. destruct (limit <=? Z.of_nat (length matching + 1))%Z eqn:B.
      * apply Z.leb_le in B.
        replace (Z.to_nat (limit - Z.of_nat (length matching + 1)))
          with 0%nat by lia.
        by rewrite take_0.
      * apply Z.leb_gt in B. rewrite IH by (rewrite length_app; cbn; lia).
        rewrite length_app. cbn [length]. by rewrite <- app_assoc.
    + destruct (limit <=? Z.of_nat (length matching))%Z eqn:B;
        [apply Z.leb_le in B; lia |].
      by apply IH.
Qed.

(** X18: with a limit of 1 or more, [get_hymns_by_theme] returns the
    first [limit] hymns that have the theme, in the order of [self.hymns];
    the limit is only tested after a hymn has been looked at, so with a
    limit of 0 or less the first hymn of the corpus, and no other, is still
    looked at and returned when it has the theme. *)
Theorem get_hymns_by_theme_limit (hymns : list Hymn) (theme : str)
    (limit : Z) :
  ((1 <= limit)%Z ->
   get_hymns_by_theme spiritual_themes hymns theme limit
   = take (Z.to_nat limit)
          (List.filter (has_theme spiritual_themes theme) hymns))
  /\ ((limit <= 0)%Z ->
      get_hymns_by_theme spiritual_themes hymns theme limit
      = List.filter (has_theme spiritual_themes theme) (take 1 hymns)).
Proof.
  unfold get_hymns_by_theme. split; intros L.
  - rewrite by_theme_loop_take by (cbn [length]; lia).
    cbn [app length]. by rewrite Z.sub_0_r.
  - destruct hymns as [|h rest]; [reflexivity |].
    cbn [by_theme_loop take List.filter app].
    destruct (has_theme spiritual_themes theme h); cbn [length].
    + destruct (limit <=? Z.of_nat 1)%Z eqn:B; [done |].
      apply Z.leb_gt in B. lia.
    + destruct (limit <=? Z.of_nat 0)%Z eqn:B; [done |].
      apply Z.leb_gt in B. lia.
Qed.

End ByThemeFacts.

(** Two hymns with the theme [agni], read as their own lists of themes:
    a limit of 0 still gives the first one. *)
Lemma get_hymns_by_theme_zero_example :
  get_hymns_by_theme (fun h : option (list str) => h)
    [Some [u "agni"]; Some [u "agni"; u "soma"]] (u "agni") 0
  = [Some [u "agni"]]
  /\ get_hymns_by_theme (fun h : option (list str) => h)
       [Some [u "soma"]; Some [u "agni"]] (u "agni") 0
     = [].
Proof. vm_compute. by split. Qed.

(** ** The karaka guess of the romanized processor *)

Lemma endswith_app (w p s : str) :
  endswith w (p ++ s) = true -> endswith w s = true.
Proof.
  unfold endswith. rewrite rev_app_distr, !startswith_prefix.
  intros [k E]. exists (rev p ++ k). by rewrite E, <- app_assoc.
Qed.

(** X19: in [_guess_karaka] the first test that succeeds decides: a token
    that ends with [a] is an agent even when it ends with [ena] or [ya], so
    the answer is never ['karana'] (instrument); the answer is
    ['sampradana'] only for a token that ends with [e] and ['adhikarana']
    only for one that ends with [su]. *)
Theorem guess_karaka_first_test_wins (tok : str) (pos verb_pos : Z) :
  let k := guess_karaka tok pos verb_pos in
  k <> u "karana"
  /\ (endswith tok (u "a") = true -> k = u "karta")
  /\ (k = u "sampradana" -> endswith tok (u "e") = true)
  /\ (k = u "adhikarana" -> endswith tok (u "su") = true)
  /\ k <> [].
Proof.
  cbv zeta. unfold guess_karaka.
  assert (Hena : endswith tok (u "ena") = true -> endswith tok (u "a") = true).
  { change (u "ena") with (u "en" ++ u "a"). apply endswith_app. }
  assert (Hya : endswith tok (u "ya") = true -> endswith tok (u "a") = true).
  { change (u "ya") with (u "y" ++ u "a"). apply endswith_app. }
  destruct (endswith tok (u "a")) eqn:Ea; cbn [orb].
  { split_and!; [by vm_compute | done | by vm_compute | by vm_compute
                | by vm_compute]. }
  destruct (endswith tok (u "ena")) eqn:Eena; [by specialize (Hena eq_refl) |].
  destruct (endswith tok (u "ya")) eqn:Eya; [by specialize (Hya eq_refl) |].
  destruct (endswith tok (u "ah")), (endswith tok (u "am")),
    (endswith tok (u "e")), (endswith tok (u "at")), (endswith tok (u "ad")),
    (endswith tok (u "su")), (pos <? verb_pos)%Z; cbn [orb];
    (split_and!; [by vm_compute | done | first [done | by vm_compute]
                 | first [done | by vm_compute] | by vm_compute]).
Qed.


Module ProcessorFacts.

Lemma guess_karaka_truthy (tok : str) (pos verb_pos : Z) :
  truthy (guess_karaka tok pos verb_pos) = true.
Proof.
  unfold guess_karaka.
  repeat match goal with
         | |- context [if ?b then _ else _] => destruct b
         end; reflexivity.
Qed.

Lemma verb_context_loop_words (vocabulary : gmap str str) (verb_root : str)
    (verb_pos i : Z) (tokens : list str) :
  List.map Processor.word
    (Processor.verb_context_loop vocabulary verb_root verb_pos i tokens)
  = if decide (i <= verb_pos < i + Z.of_nat (length tokens))%Z
    then delete (Z.to_nat (verb_pos - i)) tokens
    else tokens.
Proof.
  revert i. induction tokens as [|tok rest IH]; intros i.
  - cbn [Processor.verb_context_loop List.map length].
    by destruct (decide _).
  - cbn [Processor.verb_context_loop length].
    destruct (i =? verb_pos)%Z eqn:E.
    + apply Z.eqb_eq in E. subst i. rewrite IH.
      rewrite decide_False by lia. rewrite decide_True by lia.
      by rewrite Z.sub_diag.
    + apply Z.eqb_neq in E. rewrite guess_karaka_truthy.
      cbn [List.map Processor.word]. rewrite IH.
      destruct (decide (i + 1 <= verb_pos < i + 1 + Z.of_nat (length rest))%Z)
        as [D|D].
      * rewrite decide_True by lia.
        replace (Z.to_nat (verb_pos - i))
          with (S (Z.to_nat (verb_pos - (i + 1)))) by lia.
        reflexivity.
      * by rewrite decide_False by lia.
Qed.

(** X20: [_analyze_verb_context] leaves out the token at the position of
    the verb and nothing else: every other token gets one triple, in the
    order of the tokens, also a token that repeats the string of the verb;
    a position outside the list leaves out no token. Each triple carries the
    verb root given, the meaning of the vocabulary for the token, or
    ['unknown'], and the triples are appended to [self.triples]. *)
Theorem analyze_verb_context_by_position (vocabulary : gmap str str)
    (self_triples : list Processor.SanskritTriple) (verb_root : str)
    (tokens : list str) (verb_pos : Z) :
  let r := Processor.analyze_verb_context vocabulary self_triples verb_root
             tokens verb_pos in
  List.map Processor.word r.1
  = (if decide (0 <= verb_pos < Z.of_nat (length tokens))%Z
     then delete (Z.to_nat verb_pos) tokens
     else tokens)
  /\ Forall (fun t =>
               Processor.verb_root t = verb_root
               /\ Processor.meaning t
                  = default (u "unknown") (vocabulary !! Processor.word t)
               /\ Processor.devanagari t = [])
            r.1
  /\ r.2 = self_triples ++ r.1.
Proof.
  cbv zeta. unfold Processor.analyze_verb_context. cbn [fst snd].
  split_and!; [| |reflexivity].
  - rewrite verb_context_loop_words. cbn [Z.add].
    by rewrite Z.sub_0_r.
  - generalize 0%Z as i. induction tokens as [|tok rest IH]; intros i;
      cbn [Processor.verb_context_loop]; [constructor |].
    destruct (i =? verb_pos)%Z; [apply IH |].
    rewrite guess_karaka_truthy. constructor; [|apply IH]. by split_and!.
Qed.

End ProcessorFacts.


(** ** Themes of a hymn *)

Module ThemesFacts.

Import Themes.

Lemma insert_by_perm (key : str -> nat) (x : str) (l : list str) :
  insert_by key x l ≡ₚ x :: l.
Proof.
  induction l as [|y l IH]; [done |]. cbn [insert_by].
  destruct (key x <? key y)%nat; [|done].
  rewrite IH. apply Permutation_swap.
Qed.

Lemma sort_desc_perm (key : str -> nat) (l : list str) :
  sort_desc key l ≡ₚ l.
Proof.
  induction l as [|x l IH]; [done |]. unfold sort_desc in *.
  cbn [foldr]. rewrite insert_by_perm. by rewrite IH.
Qed.





Lemma dict_get_elem {V : Type} (d : list (str * V)) (k : str) :
  k ∈ d.*1 <-> is_Some (dict_get d k).
Proof.
  induction d as [|[k' v] d IH]; cbn [fmap list_fmap fst dict_get].
  - split; [by intros ?%elem_of_nil | by intros [? ?]].
  - destruct (decide (k' = k)) as [->|N].
    + rewrite bool_decide_eq_true_2 by reflexivity.
      split; [by eexists | intros _; by left].
    + rewrite bool_decide_eq_false_2 by done. rewrite <- IH.
      split; [intros [E | H]%elem_of_cons; [by destruct N | done]
             | intros H; by right].
Qed.

Section AnalyzeFacts.

Variable lower : str -> str.

Lemma scores_in_cons (text : str) (k : str) (kws : list str)
    (tbl : list (str * list str)) :
  scores_in lower text ((k, kws) :: tbl)
  = (if (0 <? theme_score lower text kws)%nat
     then [(k, theme_score lower text kws)] else [])
    ++ scores_in lower text tbl.
Proof. reflexivity. Qed.

(** The scores kept for the themes of any table without repeated name. *)
Lemma scores_get (text : str) (tbl : list (str * list str)) (name : str) :
  NoDup tbl.*1 ->
  dict_get (scores_in lower text tbl) name
  = match dict_get tbl name with
    | Some keywords =>
        if (0 <? theme_score lower text keywords)%nat
        then Some (theme_score lower text keywords) else None
    | None => None
    end.
Proof.
  induction tbl as [|[k kws] tbl IH]; intros Hnd; [done |].
  cbn [fmap list_fmap fst] in Hnd. apply NoDup_cons in Hnd as [Hk Hnd].
  rewrite scores_in_cons. cbn [dict_get].
  destruct (decide (k = name)) as [->|N].
  - rewrite bool_decide_eq_true_2 by reflexivity.
    destruct (0 <? theme_score lower text kws)%nat.
    + cbn [app dict_get]. by rewrite bool_decide_eq_true_2.
    + cbn [app]. rewrite IH by done.
      destruct (dict_get tbl name) as [v|] eqn:G; [|done].
      exfalso. apply Hk. apply dict_get_elem. by eexists.
  - rewrite (bool_decide_eq_false_2 (k = name)) by done.
    destruct (0 <? theme_score lower text kws)%nat; cbn [app dict_get].
    + rewrite bool_decide_eq_false_2 by done. by apply IH.
    + by apply IH.
Qed.



Lemma vedic_themes_nodup : NoDup vedic_themes.*1.
Proof.
  refine (bool_decide_unpack (NoDup vedic_themes.*1) _).
  vm_compute. exact I.
Qed.

Lemma theme_scores_get (text name : str) :
  default 0 (dict_get (theme_scores lower text) name)
  = score_for lower text name
  /\ (is_Some (dict_get (theme_scores lower text) name)
      <-> 0 < score_for lower text name).
Proof.
  unfold theme_scores, score_for.
  rewrite scores_get by apply vedic_themes_nodup.
  destruct (dict_get vedic_themes name) as [kws|].
  - destruct (0 <? theme_score lower text kws)%nat eqn:L.
    + apply Nat.ltb_lt in L. split; [done |]. split; [done | by eexists].
    + apply Nat.ltb_ge in L. split; [cbn; lia |].
      split; [by intros [? ?] | lia].
  - split; [done |]. split; [by intros [? ?] | lia].
Qed.


Lemma themes_found_elem (text x : str) :
  x ∈ themes_found lower text <-> 0 < score_for lower text x.
Proof.
  unfold themes_found. rewrite sort_desc_perm.
  change (List.map fst (theme_scores lower text))
    with ((theme_scores lower text).*1).
  rewrite dict_get_elem. apply theme_scores_get.
Qed.


Lemma ritual_of_scores (text : str) :
  ritual_context_of (themes_found lower text)
  = (if (0 <? score_for lower text (u "sacrifice"))%nat then u "sacrifice"
     else if (0 <? score_for lower text (u "prayer"))%nat then u "prayer"
     else if (0 <? score_for lower text (u "creation"))%nat
          then u "cosmological"
     else u "general").
Proof.
  assert (B : forall x,
            bool_decide (x ∈ themes_found lower text)
            = (0 <? score_for lower text x)%nat).
  { intros x. destruct (0 <? score_for lower text x)%nat eqn:L.
    - apply bool_decide_eq_true_2, themes_found_elem. by apply Nat.ltb_lt.
    - apply bool_decide_eq_false_2. rewrite themes_found_elem.
      apply Nat.ltb_ge in L. lia. }
  unfold ritual_context_of. by rewrite !B.
Qed.

End AnalyzeFacts.

End ThemesFacts.


Module ThemesRanking.

Import Themes ThemesFacts.

Section Ranking.

Variable lower : str -> str.



Lemma deity_step_score (text : str) (best : str * nat) (deity : str) :
  deity_step (theme_scores lower text) best deity
  = if (best.2 <? score_for lower text deity)%nat
    then (deity, score_for lower text deity) else best.
Proof.
  unfold deity_step.
  destruct (theme_scores_get lower text deity) as [G P].
  destruct (dict_get (theme_scores lower text) deity) as [s|].
  - change (s = score_for lower text deity) in G. by rewrite G.
  - change (0%nat = score_for lower text deity) in G. rewrite <- G.
    by rewrite (proj2 (Nat.ltb_ge best.2 0)) by lia.
Qed.

Lemma deity_fold (text : str) (ds : list str) (best : str * nat) :
  let r := foldl (deity_step (theme_scores lower text)) best ds in
  (r = best /\ Forall (fun d => score_for lower text d <= best.2) ds)
  \/ (r.1 ∈ ds /\ r.2 = score_for lower text r.1 /\ best.2 < r.2
      /\ Forall (fun d => score_for lower text d <= r.2) ds).
Proof.
  cbv zeta. revert best. induction ds as [|d ds IH]; intros best.
  - left. by split.
  - cbn [foldl]. rewrite deity_step_score.
    destruct (best.2 <? score_for lower text d)%nat eqn:L.
    + apply Nat.ltb_lt in L. right.
      destruct (IH (d, score_for lower text d))
        as [[E F] | (Hin & Hs & Hlt & F)].
      * rewrite E. cbn [fst snd] in *. split_and!; [by left | done | done |].
        constructor; [lia | done].
      * cbn [snd] in Hlt. split_and!; [by right | done | lia |].
        constructor; [lia | done].
    + apply Nat.ltb_ge in L.
      destruct (IH best) as [[E F] | (Hin & Hs & Hlt & F)].
      * left. split; [done |]. by constructor.
      * right. split_and!; [by right | done | done |].
        constructor; [lia | done].
Qed.

(** X23: the deity focus and the ritual context do not depend on the cut
    after five themes. The deity is the empty string exactly when none of
    the six deity themes has a score above 0; otherwise it is one of the six
    with the greatest score among them. The ritual context is ['sacrifice']
    when the theme sacrifice scores above 0, else ['prayer'] when prayer
    does, else ['cosmological'] when creation does, else ['general']. *)
Theorem analyze_hymn_themes_focus (sanskrit romanized : str) :
  let text := lower (sanskrit ++ u " " ++ romanized) in
  let r := analyze_hymn_themes lower sanskrit romanized in
  let deity := r.1.1.2 in
  let ritual := r.1.2 in
  (deity = [] <-> Forall (fun d => score_for lower text d = 0) deity_themes)
  /\ (deity <> [] ->
      deity ∈ deity_themes
      /\ 0 < score_for lower text deity
      /\ Forall (fun d => score_for lower text d <= score_for lower text deity)
                deity_themes)
  /\ ritual
     = (if (0 <? score_for lower text (u "sacrifice"))%nat then u "sacrifice"
        else if (0 <? score_for lower text (u "prayer"))%nat then u "prayer"
        else if (0 <? score_for lower text (u "creation"))%nat
             then u "cosmological"
        else u "general").
Proof.
  cbv zeta. unfold analyze_hymn_themes. cbn [fst snd].
  set (text := lower (sanskrit ++ u " " ++ romanized)).
  fold (theme_scores lower text).
  assert (Hne : Forall (fun d : str => d <> []) deity_themes)
    by (repeat constructor; vm_compute; discriminate).
  destruct (deity_fold text deity_themes ([], 0%nat))
    as [[E F] | (Hin & Hs & Hlt & F)]; cbv zeta in *.
  - rewrite E. cbn [fst snd] in *. split_and!.
    + split; [intros _ | done].
      eapply Forall_impl; [exact F |]. intros d Hd. cbn beta in Hd. lia.
    + done.
    + fold (themes_found lower text). apply ritual_of_scores.
  - set (r := foldl (deity_step (theme_scores lower text)) ([], 0%nat)
                    deity_themes) in *.
    cbn [snd] in Hlt.
    assert (Hr : r.1 <> []).
    { rewrite Forall_forall in Hne. by apply Hne. }
    split_and!.
    + split; [done |]. intros Hz. exfalso.
      rewrite Forall_forall in Hz. specialize (Hz _ Hin). lia.
    + intros _. split_and!; [done | lia |]. by rewrite <- Hs.
    + fold (themes_found lower text). apply ritual_of_scores.
Qed.

End Ranking.

End ThemesRanking.
